(** * Nietzsche distant-reading dashboard: a shallow embedding

    The dashboard is a set of browser modules (DataLoader, Sentiment,
    Comparison, WordCloud, NGrams and the application controller) that render
    one precomputed JSON document.  This development embeds the computational
    kernel of each module as Rocq functions and proves the properties the
    specification states about them.

    Conventions.
    - A JavaScript number is a [number]: a rational, one of the two
      infinities, or NaN.  Arithmetic is exact on the rationals (binary64
      rounding and the sign of zero are not modelled); the special values
      follow IEEE 754 as JavaScript does.
    - [undefined] is [None]; a thrown exception or a rejected promise is
      [Threw].
    - Module-level [let] variables become fields of an explicit state record
      that every operation threads through. *)

From Stdlib Require Import QArith Qminmax Qround Ascii String Lqa.
From stdpp Require Import gmap strings list.

Set Warnings "-register-all,-clear-no-such-hyp".
Local Close Scope Q_scope.
Local Open Scope string_scope.

(** ** JavaScript numbers *)

Module JsNumber.

Inductive number : Type :=
  | Fin (q : Q)
  | PInf
  | NInf
  | NaN.

Definition ofZ (z : Z) : number := Fin (inject_Z z).

(** [a >= b] *)
Definition geb (a b : number) : bool :=
  match a, b with
  | NaN, _ | _, NaN => false
  | Fin p, Fin q => Qle_bool q p
  | PInf, _ => true
  | _, NInf => true
  | Fin _, PInf => false
  | NInf, _ => false
  end.

(** [a > b] *)
Definition gtb (a b : number) : bool :=
  match a, b with
  | NaN, _ | _, NaN => false
  | Fin p, Fin q => negb (Qle_bool p q)
  | PInf, PInf => false
  | PInf, _ => true
  | NInf, _ => false
  | Fin _, NInf => true
  | Fin _, PInf => false
  end.

(** [a < b] and [a === b] on numbers *)
Definition ltb (a b : number) : bool := gtb b a.

Definition eqb (a b : number) : bool :=
  match a, b with
  | Fin p, Fin q => Qeq_bool p q
  | PInf, PInf | NInf, NInf => true
  | _, _ => false
  end.

(** The mathematical order that the boolean tests decide; NaN is unordered. *)
Definition le (a b : number) : Prop :=
  match a, b with
  | NaN, _ | _, NaN => False
  | Fin p, Fin q => (p <= q)%Q
  | NInf, _ => True
  | _, PInf => True
  | _, _ => False
  end.

Definition lt (a b : number) : Prop :=
  match a, b with
  | NaN, _ | _, NaN => False
  | Fin p, Fin q => (p < q)%Q
  | NInf, NInf | PInf, PInf => False
  | NInf, _ => True
  | _, PInf => True
  | _, _ => False
  end.

(** Same number: rationals up to the value they denote. *)
Definition same (a b : number) : Prop :=
  match a, b with
  | Fin p, Fin q => (p == q)%Q
  | PInf, PInf | NInf, NInf | NaN, NaN => True
  | _, _ => False
  end.

Definition isFinite (a : number) : bool :=
  match a with Fin _ => true | _ => false end.

Definition sign (q : Q) : comparison := (Qnum q ?= 0)%Z.

(** [a - b] *)
Definition sub (a b : number) : number :=
  match a, b with
  | NaN, _ | _, NaN => NaN
  | Fin p, Fin q => Fin (p - q)%Q
  | PInf, PInf | NInf, NInf => NaN
  | PInf, _ => PInf
  | NInf, _ => NInf
  | Fin _, PInf => NInf
  | Fin _, NInf => PInf
  end.

(** [a + b] *)
Definition add (a b : number) : number :=
  match a, b with
  | NaN, _ | _, NaN => NaN
  | Fin p, Fin q => Fin (p + q)%Q
  | PInf, NInf | NInf, PInf => NaN
  | PInf, _ | _, PInf => PInf
  | NInf, _ | _, NInf => NInf
  end.

Definition signed_inf (c : comparison) : number :=
  match c with Gt => PInf | Lt => NInf | Eq => NaN end.

Definition flip (c : comparison) : comparison := CompOpp c.

Definition sign_of (a : number) : option comparison :=
  match a with
  | Fin q => Some (sign q)
  | PInf => Some Gt
  | NInf => Some Lt
  | NaN => None
  end.

Definition sign_mul (c d : comparison) : comparison :=
  match c, d with
  | Eq, _ | _, Eq => Eq
  | Gt, x => x
  | Lt, x => flip x
  end.

(** [a * b]: zero times an infinity is NaN. *)
Definition mul (a b : number) : number :=
  match a, b with
  | Fin p, Fin q => Fin (p * q)%Q
  | _, _ =>
      match sign_of a, sign_of b with
      | Some c, Some d => signed_inf (sign_mul c d)
      | _, _ => NaN
      end
  end.

(** [a / b]: a non-zero number over zero is an infinity, zero over zero and
    infinity over infinity are NaN. *)
Definition div (a b : number) : number :=
  match a, b with
  | NaN, _ | _, NaN => NaN
  | Fin p, Fin q =>
      match sign q with
      | Eq => signed_inf (sign p)
      | _ => Fin (p / q)%Q
      end
  | Fin _, _ => Fin 0
  | _, Fin q =>
      match sign_of a, sign q with
      | Some c, Eq => signed_inf c
      | Some c, d => signed_inf (sign_mul c d)
      | None, _ => NaN
      end
  | _, _ => NaN
  end.

(** [Math.min(...xs)] and [Math.max(...xs)]: the empty list gives the
    identity of the operation, any NaN argument gives NaN. *)
Definition min2 (a b : number) : number :=
  match a, b with
  | NaN, _ | _, NaN => NaN
  | _, _ => if gtb a b then b else a
  end.

Definition max2 (a b : number) : number :=
  match a, b with
  | NaN, _ | _, NaN => NaN
  | _, _ => if gtb b a then b else a
  end.

Definition Math_min (xs : list number) : number := foldr min2 PInf xs.
Definition Math_max (xs : list number) : number := foldr max2 NInf xs.

End JsNumber.

Import JsNumber.

(** ** Sentiment module *)

Module Sentiment.

Definition dq : string := String (Ascii.ascii_of_nat 34) EmptyString.

(** The two variables [interpretation] and [color] that the if-chain of
    [interpretSentiment] assigns. *)
Definition interpret (compound : number) : string * string :=
  if geb compound (Fin (3 # 4)) then ("Very Positive", "success")
  else if geb compound (Fin (1 # 2)) then ("Positive", "success")
  else if geb compound (Fin (1 # 4)) then ("Moderately Positive", "info")
  else if geb compound (Fin (-1 # 4)) then ("Neutral", "secondary")
  else if geb compound (Fin (-1 # 2)) then ("Moderately Negative", "warning")
  else if geb compound (Fin (-3 # 4)) then ("Negative", "danger")
  else ("Very Negative", "danger").

Definition interpretation (compound : number) : string := fst (interpret compound).
Definition color (compound : number) : string := snd (interpret compound).

Definition badge (color interpretation : string) : string :=
  "<span class=" +:+ dq +:+ "badge bg-" +:+ color +:+ " fs-6" +:+ dq +:+ ">"
    +:+ interpretation +:+ "</span>".

Definition interpretSentiment (compound : number) : string :=
  badge (color compound) (interpretation compound).

End Sentiment.

(** ** Application controller: the overview panel *)

Module Overview.

(** The [sentimentLabel] expression of [displayOverview]. *)
Definition sentimentLabel (sentiment : number) : string :=
  if gtb sentiment (Fin (1 # 2)) then "Positive"
  else if gtb sentiment (Fin 0) then "Moderately Positive"
  else if gtb sentiment (Fin (-1 # 2)) then "Moderately Negative"
  else "Negative".

End Overview.

(** ** The analysis document *)

Module Data.

(** A parsed JSON value.  [style_metrics] is kept as such a tree because the
    comparison table reaches into it by string path. *)
Inductive value : Type :=
  | JNull
  | JBool (b : bool)
  | JNum (n : number)
  | JStr (s : string)
  | JArr (items : list value)
  | JObj (fields : gmap string value).

Record concept := {
  term : string;
  variants : list string;
  concept_count : Z
}.

Record wordCount := {
  word : string;
  count : Z
}.

Record text := {
  id : string;
  title : string;
  word_count : Z;
  unique_words : Z;
  positive : number;
  negative : number;
  neutral : number;
  compound : number;
  style_metrics : value;
  key_concepts : list concept;
  top_100 : list wordCount
}.

(** One record of [comparative.vocabulary_overlap.pairs]. *)
Record pair := {
  text1 : string;
  text2 : string;
  shared_words : Z;
  unique_to_text1 : Z;
  unique_to_text2 : Z;
  jaccard_similarity : number;
  overlap_percentage_text1 : number;
  overlap_percentage_text2 : number
}.

Record vocabularyOverlap := {
  pairs : list pair;
  similarity_matrix : gmap string (gmap string number)
}.

Record comparativeData := {
  vocabulary_overlap : vocabularyOverlap
}.

Record document := {
  texts : list text;
  comparative : comparativeData
}.

(** The text seen as a JavaScript object, for access by property name. *)
Definition conceptObject (c : concept) : value :=
  JObj (<["term" := JStr (term c)]>
       (<["variants" := JArr (JStr <$> variants c)]>
       (<["count" := JNum (ofZ (concept_count c))]> ∅))).

Definition wordObject (w : wordCount) : value :=
  JObj (<["word" := JStr (word w)]> (<["count" := JNum (ofZ (count w))]> ∅)).

Definition vaderObject (t : text) : value :=
  JObj (<["positive" := JNum (positive t)]>
       (<["negative" := JNum (negative t)]>
       (<["neutral" := JNum (neutral t)]>
       (<["compound" := JNum (compound t)]> ∅)))).

Definition toObject (t : text) : value :=
  JObj (<["id" := JStr (id t)]>
       (<["title" := JStr (title t)]>
       (<["word_count" := JNum (ofZ (word_count t))]>
       (<["unique_words" := JNum (ofZ (unique_words t))]>
       (<["sentiment" := JObj {["vader" := vaderObject t]}]>
       (<["style_metrics" := style_metrics t]>
       (<["key_concepts" := JArr (conceptObject <$> key_concepts t)]>
       (<["bag_of_words" := JObj {["top_100" := JArr (wordObject <$> top_100 t)]}]>
          ∅)))))))).

End Data.

Import Data.

(** ** Outcomes of calls *)

Inductive outcome (A : Type) : Type :=
  | Returned (a : A)
  | Threw (message : string)
  | Blocked.

Arguments Returned {A} a.
Arguments Threw {A} message.
Arguments Blocked {A}.

Definition bind {A B S : Type} (m : S -> S * outcome A) (k : A -> B)
  : S -> S * outcome B :=
  fun s =>
    match m s with
    | (s', Returned a) => (s', Returned (k a))
    | (s', Threw e) => (s', Threw e)
    | (s', Blocked) => (s', Blocked)
    end.

(** ** DataLoader module *)

Module DataLoader.

(** What one [fetch] of the JSON file brings back: a network failure, or a
    response with its [ok] flag, its status and the result of [json()]
    ([None] when the body does not parse). *)
Inductive fetched : Type :=
  | NetworkFailure
  | Response (ok : bool) (status : nat) (body : option document).

(** An object on the heap: [response.json()] allocates a fresh one at every
    call, so two loads never return the same object unless it was cached. *)
Record object := {
  addr : nat;
  content : document
}.

(** The closure variables [analysisData] and [isLoading], and the number of
    fetches issued so far. *)
Record loader := {
  analysisData : option object;
  isLoading : bool;
  fetches : nat
}.

Definition initial : loader :=
  {| analysisData := None; isLoading := false; fetches := 0 |}.

(** [loadData].  [server n] is the outcome of the [n]-th fetch.  A call that
    finds [isLoading] set polls until the load in flight ends; in this
    sequential model no other call is in flight, so it stays [Blocked]. *)
Definition loadData (server : nat -> fetched) (st : loader)
  : loader * outcome object :=
  match analysisData st with
  | Some data => (st, Returned data)
  | None =>
      if isLoading st then (st, Blocked)
      else
        let n := fetches st in
        let failed := {| analysisData := None; isLoading := false; fetches := S n |} in
        match server n with
        | NetworkFailure => (failed, Threw "fetch failed")
        | Response ok status body =>
            if negb ok then (failed, Threw "HTTP error!")
            else
              match body with
              | None => (failed, Threw "invalid JSON")
              | Some doc =>
                  let data := {| addr := n; content := doc |} in
                  ({| analysisData := Some data; isLoading := false; fetches := S n |},
                   Returned data)
              end
        end
  end.

Definition getTextById (server : nat -> fetched) (textId : string)
  : loader -> loader * outcome (option text) :=
  bind (loadData server)
       (fun data => List.find (fun t => bool_decide (id t = textId)) (texts (content data))).

Definition getAllTexts (server : nat -> fetched)
  : loader -> loader * outcome (list text) :=
  bind (loadData server) (fun data => texts (content data)).

Definition getComparativeData (server : nat -> fetched)
  : loader -> loader * outcome comparativeData :=
  bind (loadData server) (fun data => comparative (content data)).

(** The predicate given to [pairs.find]. *)
Definition matches (text1Id text2Id : string) (p : pair) : bool :=
  (bool_decide (text1 p = text1Id) && bool_decide (text2 p = text2Id))
  || (bool_decide (text1 p = text2Id) && bool_decide (text2 p = text1Id)).

Definition getVocabularyOverlap (server : nat -> fetched) (text1Id text2Id : string)
  : loader -> loader * outcome (option pair) :=
  bind (loadData server)
       (fun data =>
          List.find (matches text1Id text2Id)
                    (pairs (vocabulary_overlap (comparative (content data))))).

Definition clearCache (st : loader) : loader :=
  {| analysisData := None; isLoading := isLoading st; fetches := fetches st |}.

End DataLoader.

(** ** Comparison module *)

Module Comparison.

(** [path.split('.')] *)
Fixpoint split_dots (path : string) : list string :=
  match path with
  | EmptyString => [EmptyString]
  | String c rest =>
      if bool_decide (c = "."%char) then EmptyString :: split_dots rest
      else
        match split_dots rest with
        | key :: keys => String c key :: keys
        | [] => [String c EmptyString]
        end
  end.

(** [current?.[key]]: [undefined] stays [undefined], an object gives its own
    property.  Properties that primitives and arrays inherit ([length],
    indices) are not modelled: no metric path goes through one. *)
Definition property (current : option value) (key : string) : option value :=
  match current with
  | Some (JObj fields) => fields !! key
  | _ => None
  end.

Definition getNestedValue (obj : value) (path : string) : option value :=
  fold_left property (split_dots path) (Some obj).

Record metric := {
  key : string;
  label : string;
  path : string;
  unit : string
}.

Definition metrics : list metric :=
  [ {| key := "avg_sentence_length"; label := "Avg Sentence Length";
       path := "style_metrics.sentences.avg_length"; unit := " words" |};
    {| key := "flesch_reading_ease"; label := "Reading Ease";
       path := "style_metrics.readability.flesch_reading_ease"; unit := "" |};
    {| key := "flesch_kincaid"; label := "Grade Level";
       path := "style_metrics.readability.flesch_kincaid_grade"; unit := "" |};
    {| key := "avg_word_length"; label := "Avg Word Length";
       path := "style_metrics.word_length.average"; unit := " chars" |};
    {| key := "punct_density"; label := "Punctuation Density";
       path := "style_metrics.punctuation.density_per_1000"; unit := "/1000" |} ].

(** A value on which [toFixed] can be called: only a number has the method,
    anything else makes the template throw a TypeError. *)
Definition asNumber (v : option value) : option number :=
  match v with
  | Some (JNum n) => Some n
  | _ => None
  end.

Fixpoint allNumbers (vs : list (option value)) : option (list number) :=
  match vs with
  | [] => Some []
  | v :: rest =>
      match asNumber v, allNumbers rest with
      | Some n, Some ns => Some (n :: ns)
      | _, _ => None
      end
  end.

Definition className (val min max : number) : string :=
  if eqb val max then "bg-success bg-opacity-10"
  else if eqb val min then "bg-primary bg-opacity-10"
  else "".

(** One [<td>] of a metric row: its class, the number it prints (with two
    decimals) and the unit. *)
Record styleCell := {
  cell_class : string;
  cell_value : number;
  cell_unit : string
}.

(** One [<tr>] of the style table, with the three constants computed for it. *)
Record styleRow := {
  row_label : string;
  row_min : number;
  row_max : number;
  row_range : number;
  row_cells : list styleCell
}.

(** The body of [metrics.map(metric => ...)] in [renderStyleComparison]. *)
Definition renderStyleRow (textsData : list text) (m : metric) : outcome styleRow :=
  let values := List.map (fun t => getNestedValue (toObject t) (path m)) textsData in
  match allNumbers values with
  | None => Threw "val.toFixed is not a function"
  | Some values =>
      let min := Math_min values in
      let max := Math_max values in
      let range := sub max min in
      Returned {| row_label := label m;
                  row_min := min;
                  row_max := max;
                  row_range := range;
                  row_cells :=
                    List.map (fun val => {| cell_class := className val min max;
                                            cell_value := val;
                                            cell_unit := unit m |}) values |}
  end.

Fixpoint sequence {A : Type} (rs : list (outcome A)) : outcome (list A) :=
  match rs with
  | [] => Returned []
  | Returned a :: rest =>
      match sequence rest with
      | Returned l => Returned (a :: l)
      | Threw e => Threw e
      | Blocked => Blocked
      end
  | Threw e :: _ => Threw e
  | Blocked :: _ => Blocked
  end.

Definition renderStyleComparison (textsData : list text) : outcome (list styleRow) :=
  sequence (List.map (renderStyleRow textsData) metrics).

(** [Math.floor] *)
Definition floor (n : number) : number :=
  match n with
  | Fin q => ofZ (Qfloor q)
  | other => other
  end.

(** One cell of the similarity table: the percentage printed and the
    background ([None] for the grey diagonal, otherwise the colour
    intensity subtracted from 200). *)
Record matrixCell := {
  percentage : number;
  colorIntensity : option number
}.

Definition toNumber (v : option number) : number :=
  match v with Some n => n | None => NaN end.

(** [matrix[text1.id][text2.id]] and the cell built from it.  A row missing
    from the matrix throws; an entry missing from a row is [undefined]. *)
Definition matrixCellOf (matrix : gmap string (gmap string number)) (t1 t2 : text)
  : outcome matrixCell :=
  match matrix !! id t1 with
  | None => Threw "Cannot read properties of undefined"
  | Some row =>
      let similarity := toNumber (row !! id t2) in
      Returned {| percentage := mul similarity (ofZ 100);
                  colorIntensity :=
                    if bool_decide (id t1 = id t2) then None
                    else Some (floor (mul similarity (ofZ 200))) |}
  end.

Definition renderSimilarityMatrix (textsData : list text) (comparative : comparativeData)
  : outcome (list (string * list matrixCell)) :=
  let matrix := similarity_matrix (vocabulary_overlap comparative) in
  sequence
    (List.map
       (fun t1 =>
          match sequence (List.map (matrixCellOf matrix t1) textsData) with
          | Returned cells => Returned (substring 0 15 (title t1) +:+ "...", cells)
          | Threw e => Threw e
          | Blocked => Blocked
          end)
       textsData).

(** What [renderVocabularyOverlap] puts in the section. *)
Inductive overlapSection : Type :=
  | NotAvailable
  | Details (title0 title1 : string) (overlap : pair)
  | Matrix (rows : list (string * list matrixCell)).

Definition renderVocabularyOverlap (server : nat -> DataLoader.fetched)
    (textsData : list text) (comparative : comparativeData)
    (st : DataLoader.loader) : DataLoader.loader * outcome overlapSection :=
  match textsData with
  | [t0; t1] =>
      bind (DataLoader.getVocabularyOverlap server (id t0) (id t1))
           (fun overlap =>
              match overlap with
              | None => NotAvailable
              | Some p => Details (title t0) (title t1) p
              end) st
  | _ =>
      (st, match renderSimilarityMatrix textsData comparative with
           | Returned rows => Returned (Matrix rows)
           | Threw e => Threw e
           | Blocked => Blocked
           end)
  end.

(** One row of the overview table; the two ratios are printed with four
    decimals, so both must be numbers. *)
Record overviewRow := {
  overview_title : string;
  overview_words : Z;
  overview_unique : Z;
  overview_ttr : number;
  overview_sentiment : number
}.

Definition renderOverviewRow (t : text) : outcome overviewRow :=
  match asNumber (getNestedValue (toObject t) "style_metrics.vocabulary.type_token_ratio") with
  | None => Threw "Cannot read properties of undefined"
  | Some ttr =>
      Returned {| overview_title := title t;
                  overview_words := word_count t;
                  overview_unique := unique_words t;
                  overview_ttr := ttr;
                  overview_sentiment := compound t |}
  end.

Definition renderOverview (textsData : list text) : outcome (list overviewRow) :=
  sequence (List.map renderOverviewRow textsData).

(** The canvases of the word clouds, one per text, numbered from 0. *)
Definition renderWordClouds (textsData : list text) : list (string * nat) :=
  imap (fun i t => (title t, i)) textsData.

(** The sections that [display] writes into the container, in the order the
    template evaluates them.  The charts drawn later from the timer callback
    are not part of it. *)
Record comparisonView := {
  view_overview : list overviewRow;
  view_wordclouds : list (string * nat);
  view_style : list styleRow;
  view_overlap : overlapSection
}.

Definition display (container : bool) (server : nat -> DataLoader.fetched)
    (textsData : list text) (comparative : comparativeData)
    (st : DataLoader.loader) : DataLoader.loader * outcome (option comparisonView) :=
  if negb container then (st, Returned None)
  else
    match renderOverview textsData with
    | Threw e => (st, Threw e)
    | Blocked => (st, Blocked)
    | Returned overview =>
        let clouds := renderWordClouds textsData in
        match renderStyleComparison textsData with
        | Threw e => (st, Threw e)
        | Blocked => (st, Blocked)
        | Returned style =>
            bind (renderVocabularyOverlap server textsData comparative)
                 (fun overlap =>
                    Some {| view_overview := overview;
                            view_wordclouds := clouds;
                            view_style := style;
                            view_overlap := overlap |}) st
        end
    end.

End Comparison.

(** ** WordCloud module *)

Module WordCloud.

(** A word handed to the layout: its text and font size. *)
Record cloudWord := {
  cloud_text : string;
  size : number
}.

Definition counts (wordData : list wordCount) : list number :=
  List.map (fun w => ofZ (count w)) wordData.

Definition maxCount (wordData : list wordCount) : number := Math_max (counts wordData).
Definition minCount (wordData : list wordCount) : number := Math_min (counts wordData).

(** [12 + ((w.count - minCount) / (maxCount - minCount)) * 48] *)
Definition fontSize (wordData : list wordCount) (w : wordCount) : number :=
  add (ofZ 12)
      (mul (div (sub (ofZ (count w)) (minCount wordData))
                (sub (maxCount wordData) (minCount wordData)))
           (ofZ 48)).

Definition words (wordData : list wordCount) : list cloudWord :=
  List.map (fun w => {| cloud_text := word w; size := fontSize wordData w |}) wordData.

(** [generate]: nothing is laid out when the canvas is missing. *)
Definition generate (canvas : bool) (wordData : list wordCount) : option (list cloudWord) :=
  if canvas then Some (words wordData) else None.

End WordCloud.

(** ** NGrams module: the concept comparison table *)

Module NGrams.

(** [new Set()] with [add]: insertion order, no duplicates. *)
Definition setAdd (s : list string) (x : string) : list string :=
  if bool_decide (x ∈ s) then s else s ++ [x].

(** The two nested [forEach] that fill [allConcepts]. *)
Definition collectConcepts (textsData : list text) : list string :=
  fold_left (fun acc t => fold_left (fun acc c => setAdd acc (term c)) (key_concepts t) acc)
            textsData [].

(** What a cell prints: a count, or a string literal. *)
Inductive shown : Type :=
  | Printed (literal : string)
  | Count (n : Z).

Record conceptCell := {
  concept_class : string;
  concept_shown : shown
}.

(** [concept ? concept.count : 0] *)
Definition countIn (t : text) (conceptTerm : string) : Z :=
  match List.find (fun c => bool_decide (term c = conceptTerm)) (key_concepts t) with
  | Some c => concept_count c
  | None => 0
  end.

(** [count > 0 ? count : 'â€”']: the literal of the source is the three
    characters U+00E2 U+20AC U+201D, the bytes C3 A2 E2 82 AC E2 80 9D. *)
Definition conceptCellOf (conceptTerm : string) (t : text) : conceptCell :=
  let count := countIn t conceptTerm in
  {| concept_class := if (0 <? count)%Z then "" else "text-muted";
     concept_shown := if (0 <? count)%Z then Count count else Printed "â€”" |}.

Definition heading (t : text) : string :=
  if (20 <? String.length (title t))%nat then substring 0 20 (title t) +:+ "..."
  else title t.

Record conceptTable := {
  headings : list string;
  rows : list (string * list conceptCell)
}.

(** [displayConceptComparison]: [None] when the container is missing. *)
Definition displayConceptComparison (container : bool) (textsData : list text)
  : option conceptTable :=
  if container then
    let conceptsArray := collectConcepts textsData in
    Some {| headings := List.map heading textsData;
            rows := List.map (fun conceptTerm =>
                                (conceptTerm, List.map (conceptCellOf conceptTerm) textsData))
                             conceptsArray |}
  else None.

End NGrams.

(** ** Application controller: selection and comparison *)

Module App.

(** Calls that leave the controller, in the order they are made.
    [ShowComparison] records the selection it was called with. *)
Inductive call : Type :=
  | ShowComparison (selected : gset string)
  | ComparisonDisplay (selectedTexts : list text)
  | ComparisonClear.

Record app := {
  allTexts : list text;
  selectedTextsForComparison : gset string;
  comparisonVisible : bool;
  calls : list call
}.

Definition start (loaded : list text) : app :=
  {| allTexts := loaded; selectedTextsForComparison := ∅;
     comparisonVisible := false; calls := [] |}.

Definition record (c : call) (st : app) : app :=
  {| allTexts := allTexts st;
     selectedTextsForComparison := selectedTextsForComparison st;
     comparisonVisible := comparisonVisible st;
     calls := calls st ++ [c] |}.

(** The texts that [showComparison] filters out of [allTexts]. *)
Definition selectedTexts (st : app) : list text :=
  List.filter (fun t => bool_decide (id t ∈ selectedTextsForComparison st)) (allTexts st).

(** The body of [showComparison], once called. *)
Definition showComparisonBody (st : app) : app :=
  if (length (selectedTexts st) <? 2)%nat then st
  else
    let st := record (ComparisonDisplay (selectedTexts st)) st in
    {| allTexts := allTexts st;
       selectedTextsForComparison := selectedTextsForComparison st;
       comparisonVisible := true;
       calls := calls st |}.

Definition showComparison (st : app) : app :=
  showComparisonBody (record (ShowComparison (selectedTextsForComparison st)) st).

(** The change handler of a comparison checkbox. *)
Definition checkboxChange (textId : string) (checked : bool) (st : app) : app :=
  {| allTexts := allTexts st;
     selectedTextsForComparison :=
       if checked then {[textId]} ∪ selectedTextsForComparison st
       else selectedTextsForComparison st ∖ {[textId]};
     comparisonVisible := comparisonVisible st;
     calls := calls st |}.

(** The click handler of the compare button. *)
Definition compareClick (st : app) : app :=
  if (2 <=? size (selectedTextsForComparison st))%nat then showComparison st else st.

(** [closeComparison] *)
Definition closeComparison (st : app) : app :=
  record ComparisonClear
    {| allTexts := allTexts st;
       selectedTextsForComparison := ∅;
       comparisonVisible := false;
       calls := calls st |}.

Inductive event : Type :=
  | CheckboxChange (textId : string) (checked : bool)
  | CompareClick
  | CloseClick.

Definition handle (st : app) (e : event) : app :=
  match e with
  | CheckboxChange textId checked => checkboxChange textId checked st
  | CompareClick => compareClick st
  | CloseClick => closeComparison st
  end.

Definition run (st : app) (events : list event) : app := fold_left handle events st.

(** The contract of the comparison engine, read on a recorded call: at least
    two texts selected, at least two texts handed over. *)
Definition respectsContract (c : call) : Prop :=
  match c with
  | ShowComparison selected => (2 <= size selected)%nat
  | ComparisonDisplay selectedTexts => (2 <= length selectedTexts)%nat
  | ComparisonClear => True
  end.

End App.

(** ** The pipeline's comparative engine *)

Module Pipeline.

(** Modelled from the spec: the vocabulary of a text and the comparative
    engine ([pairwiseOverlap], [similarityMatrix]) belong to the batch
    pipeline, whose code is not part of the dashboard sources.  The
    definitions follow sections 3 and 4.6 of the specification. *)
Record vocabularySet := {
  text_id : string;
  vocabulary : gset string
}.

(** Modelled from the spec: Jaccard similarity of [pairwiseOverlap], the size
    of the intersection over the size of the union, and 0 when the union is
    empty. *)
Definition jaccard (A B : gset string) : number :=
  if bool_decide (size (A ∪ B) = 0%nat) then Fin 0
  else Fin (Z.of_nat (size (A ∩ B)) # Pos.of_nat (size (A ∪ B))).

Definition entry (m : gmap string (gmap string number)) (i j : string) : option number :=
  m !! i ≫= fun row => row !! j.

Definition setEntry (i j : string) (v : number) (m : gmap string (gmap string number))
  : gmap string (gmap string number) :=
  <[i := <[j := v]> (default ∅ (m !! i))]> m.

(** The pair of [a] with each later text: computed once, then mirrored. *)
Definition mirror (a : vocabularySet) (later : list vocabularySet)
    (m : gmap string (gmap string number)) : gmap string (gmap string number) :=
  fold_left (fun acc b =>
               let j := jaccard (vocabulary a) (vocabulary b) in
               setEntry (text_id b) (text_id a) j (setEntry (text_id a) (text_id b) j acc))
            later m.

(** Modelled from the spec: [similarityMatrix(texts)], self-pairs fixed at
    1.0, each unordered pair computed once and written on both sides of the
    diagonal. *)
Fixpoint fill (corpus : list vocabularySet) (m : gmap string (gmap string number))
  : gmap string (gmap string number) :=
  match corpus with
  | [] => m
  | a :: later => fill later (mirror a later (setEntry (text_id a) (text_id a) (Fin 1) m))
  end.

Definition similarityMatrix (corpus : list vocabularySet) : gmap string (gmap string number) :=
  fill corpus ∅.

(** A matrix that reads the same across the diagonal, missing entries
    included. *)
Definition symmetric (m : gmap string (gmap string number)) : Prop :=
  forall i j, entry m i j = entry m j i.

End Pipeline.

(** ** A small corpus *)

Module Sample.

Definition number_at (keys : list string) (q : Q) : value :=
  foldr (fun key v => JObj {[ key := v ]}) (JNum (Fin q)) keys.

Definition styleOf (avg_length ease grade : Q) : value :=
  JObj (<["sentences" := number_at ["avg_length"] avg_length]>
       (<["readability" :=
            JObj (<["flesch_reading_ease" := JNum (Fin ease)]>
                 (<["flesch_kincaid_grade" := JNum (Fin grade)]> ∅))]>
       (<["vocabulary" := number_at ["type_token_ratio"] (1 # 6)]>
       (<["word_length" := number_at ["average"] (9 # 2)]>
       (<["punctuation" := number_at ["density_per_1000"] 150]> ∅))))).

Definition will_to_power (n : Z) : concept :=
  {| term := "will to power"; variants := ["will to power"]; concept_count := n |}.

Definition overman (n : Z) : concept :=
  {| term := "übermensch"; variants := ["overman"; "superman"]; concept_count := n |}.

Definition ecce_homo : text :=
  {| id := "ecce_homo"; title := "Ecce Homo"; word_count := 30000; unique_words := 5000;
     positive := Fin (1 # 5); negative := Fin (1 # 10); neutral := Fin (7 # 10);
     compound := Fin (4 # 5);
     style_metrics := styleOf (45 # 2) 60 (21 # 2);
     key_concepts := [will_to_power 12; overman 3];
     top_100 := [ {| word := "life"; count := 90 |}; {| word := "man"; count := 50 |};
                  {| word := "god"; count := 10 |} ] |}.

Definition antichrist : text :=
  {| id := "antichrist"; title := "The Antichrist"; word_count := 28000; unique_words := 4800;
     positive := Fin (1 # 10); negative := Fin (1 # 5); neutral := Fin (7 # 10);
     compound := Fin (-9 # 10);
     style_metrics := styleOf 19 (131 # 2) 9;
     key_concepts := [will_to_power 7];
     top_100 := [ {| word := "christian"; count := 40 |}; {| word := "priest"; count := 40 |} ] |}.

Definition beyond : text :=
  {| id := "beyond_good_and_evil"; title := "Beyond Good and Evil";
     word_count := 60000; unique_words := 8000;
     positive := Fin (3 # 20); negative := Fin (3 # 20); neutral := Fin (7 # 10);
     compound := Fin 0;
     style_metrics := styleOf (45 # 2) 55 12;
     key_concepts := [overman 1; will_to_power 20];
     top_100 := [] |}.

Definition ecce_antichrist : pair :=
  {| text1 := "ecce_homo"; text2 := "antichrist";
     shared_words := 2000; unique_to_text1 := 3000; unique_to_text2 := 2800;
     jaccard_similarity := Fin (10 # 39);
     overlap_percentage_text1 := Fin 40; overlap_percentage_text2 := Fin (125 # 3) |}.

Definition analysis : document :=
  {| texts := [ecce_homo; antichrist; beyond];
     comparative :=
       {| vocabulary_overlap :=
            {| pairs := [ecce_antichrist];
               similarity_matrix :=
                 <["ecce_homo" := <["ecce_homo" := Fin 1]> {["antichrist" := Fin (10 # 39)]}]>
                   {["antichrist" :=
                       <["antichrist" := Fin 1]> {["ecce_homo" := Fin (10 # 39)]}]} |} |} |}.

(** A server that answers every fetch with the analysis document. *)
Definition server (n : nat) : DataLoader.fetched :=
  DataLoader.Response true 200 (Some analysis).

(** Three vocabularies for the comparative engine. *)
Definition corpus : list Pipeline.vocabularySet :=
  [ {| Pipeline.text_id := "a"; Pipeline.vocabulary := {["power"; "life"; "will"]} |};
    {| Pipeline.text_id := "b"; Pipeline.vocabulary := {["power"; "life"; "truth"]} |};
    {| Pipeline.text_id := "c"; Pipeline.vocabulary := ∅ |} ].

End Sample.

(** ** DataLoader: sequences of calls *)

Module LoaderRuns.

Import DataLoader.

(** The public API of the module, one constructor per function. *)
Inductive operation : Type :=
  | LoadData
  | GetTextById (textId : string)
  | GetAllTexts
  | GetComparativeData
  | GetVocabularyOverlap (text1Id text2Id : string)
  | ClearCache.

(** The loader after one call, its result dropped. *)
Definition perform (server : nat -> fetched) (st : loader) (op : operation) : loader :=
  match op with
  | LoadData => fst (loadData server st)
  | GetTextById textId => fst (getTextById server textId st)
  | GetAllTexts => fst (getAllTexts server st)
  | GetComparativeData => fst (getComparativeData server st)
  | GetVocabularyOverlap a b => fst (getVocabularyOverlap server a b st)
  | ClearCache => clearCache st
  end.

Definition run (server : nat -> fetched) (ops : list operation) : loader :=
  fold_left (perform server) ops initial.

(** What a session keeps true of the loader: no load in flight, and a cached
    object that one of the fetches issued so far allocated. *)
Definition settled (st : loader) : Prop :=
  isLoading st = false /\
  forall data, analysisData st = Some data -> (addr data < fetches st)%nat.

End LoaderRuns.

(** ** Comparison: paths and the overlap details *)

Module ComparisonDetails.

(** A key that [split('.')] leaves whole. *)
Fixpoint dot_free (key : string) : bool :=
  match key with
  | EmptyString => true
  | String c rest => negb (bool_decide (c = "."%char)) && dot_free rest
  end.

(** The five rows of the details table, label and number printed. *)
Definition overlapRows (title0 title1 : string) (overlap : pair) : list (string * number) :=
  [ ("Shared Vocabulary", ofZ (shared_words overlap));
    ("Unique to " +:+ title0, ofZ (unique_to_text1 overlap));
    ("Unique to " +:+ title1, ofZ (unique_to_text2 overlap));
    ("Overlap % (" +:+ title0 +:+ ")", overlap_percentage_text1 overlap);
    ("Overlap % (" +:+ title1 +:+ ")", overlap_percentage_text2 overlap) ].

Definition sectionRows (s : Comparison.overlapSection) : list (string * number) :=
  match s with
  | Comparison.Details title0 title1 overlap => overlapRows title0 title1 overlap
  | _ => []
  end.

End ComparisonDetails.

(** ** WordCloud: drawing *)

Module WordCloudDraw.

(** The grey level of a word in [draw]:
    [Math.floor(40 + (1 - word.size / 60) * 120)]. *)
Definition intensity (size : number) : number :=
  Comparison.floor
    (add (ofZ 40) (mul (sub (ofZ 1) (div size (ofZ 60))) (ofZ 120))).

End WordCloudDraw.

(** ** NGrams: the list of n-grams and its switcher *)

Module NGramList.

Record ngram := {
  phrase : string;
  ngram_count : Z
}.

(** [textData.ngrams] *)
Record ngramSets := {
  bigrams : list ngram;
  trigrams : list ngram
}.

(** [allNgrams[type]]: [undefined] for any other key. *)
Definition ngramsOf (allNgrams : ngramSets) (type : string) : option (list ngram) :=
  if bool_decide (type = "bigrams") then Some (bigrams allNgrams)
  else if bool_decide (type = "trigrams") then Some (trigrams allNgrams)
  else None.

(** What [displayNGrams] writes: the message, or the heading (count and
    title) over the numbered items. *)
Inductive ngramView : Type :=
  | NoNgrams
  | NgramItems (total : nat) (title : string) (items : list (nat * string * Z)).

Definition renderNGrams (ngrams : option (list ngram)) (type : string) : ngramView :=
  match ngrams with
  | None | Some [] => NoNgrams
  | Some ngrams =>
      NgramItems (length ngrams)
                 (if bool_decide (type = "bigrams") then "2-word Phrases" else "3-word Phrases")
                 (imap (fun index n => (S index, phrase n, ngram_count n)) ngrams)
  end.

(** The closure variable [currentNgramType], the click handlers registered on
    each pill so far (each closes over the n-grams of one text), the content
    of the list container ([None] while it is empty) and the number of times
    [displayNGrams] wrote it.  The page is one that has the container. *)
Record page := {
  currentNgramType : string;
  listeners : list ngramSets;
  shown : option ngramView;
  renders : nat
}.

Definition opened : page :=
  {| currentNgramType := "bigrams"; listeners := []; shown := None; renders := 0 |}.

Definition displayNGrams (ngrams : option (list ngram)) (type : string) (pg : page) : page :=
  {| currentNgramType := currentNgramType pg;
     listeners := listeners pg;
     shown := Some (renderNGrams ngrams type);
     renders := S (renders pg) |}.

Definition setupNGramSwitcher (allNgrams : ngramSets) (pg : page) : page :=
  {| currentNgramType := currentNgramType pg;
     listeners := listeners pg ++ [allNgrams];
     shown := shown pg;
     renders := renders pg |}.

(** The n-gram part of [display]. *)
Definition display (allNgrams : ngramSets) (pg : page) : page :=
  setupNGramSwitcher allNgrams
    (displayNGrams (ngramsOf allNgrams (currentNgramType pg)) (currentNgramType pg) pg).

(** One registered handler, run for a click on the pill of [type]. *)
Definition handler (type : string) (pg : page) (allNgrams : ngramSets) : page :=
  displayNGrams (ngramsOf allNgrams type) type
    {| currentNgramType := type;
       listeners := listeners pg;
       shown := shown pg;
       renders := renders pg |}.

(** A click on a pill runs the handlers in the order they were added. *)
Definition click (type : string) (pg : page) : page :=
  fold_left (handler type) (listeners pg) pg.

Definition clear (pg : page) : page :=
  {| currentNgramType := "bigrams";
     listeners := listeners pg;
     shown := None;
     renders := renders pg |}.

End NGramList.

(** ** Application controller: the compare button and the session *)

Module AppButton.

Import App.

Inductive buttonText : Type :=
  | CompareTexts (count : nat)
  | SelectTwoPlus.

Record compareButton := {
  disabled : bool;
  textContent : buttonText
}.

(** [updateCompareButton] *)
Definition updateCompareButton (st : app) : compareButton :=
  let count := size (selectedTextsForComparison st) in
  {| disabled := (count <? 2)%nat;
     textContent := if (2 <=? count)%nat then CompareTexts count else SelectTwoPlus |}.

(** The number of boxes ticked by a sequence of events. *)
Definition ticks (events : list event) : nat :=
  length (List.filter (fun e => match e with
                                | CheckboxChange _ true => true
                                | _ => false
                                end) events).

(** [init]: the controller exists only when the load succeeded; otherwise the
    error is shown and no listener is set up. *)
Definition init (server : nat -> DataLoader.fetched) (ld : DataLoader.loader)
  : DataLoader.loader * option (app * comparativeData) :=
  match DataLoader.loadData server ld with
  | (ld', Returned data) =>
      (ld', Some (start (texts (DataLoader.content data)),
                  comparative (DataLoader.content data)))
  | (ld', _) => (ld', None)
  end.

End AppButton.

(** ** StyleMetrics module: distributions *)

Module StyleMetrics.

(** [Object.values(dist).reduce((a, b) => a + b, 0)] *)
Definition total (dist : list (string * Z)) : Z :=
  fold_left (fun a entry => (a + snd entry)%Z) dist 0%Z.

(** The number that [x.toFixed(1)] prints: the nearest tenth, halves away
    from zero. *)
Definition toFixed1 (x : number) : number :=
  match x with
  | Fin q =>
      if Qle_bool 0 q then Fin (inject_Z (Qfloor (q * 10 + (1 # 2))) / 10)%Q
      else Fin (- (inject_Z (Qfloor (- q * 10 + (1 # 2))) / 10))%Q
  | other => other
  end.

(** [(count / total * 100).toFixed(1)] *)
Definition percentageOf (count total : Z) : number :=
  toFixed1 (mul (div (ofZ count) (ofZ total)) (ofZ 100)).

Definition colors : list string :=
  ["#0d6efd"; "#198754"; "#ffc107"; "#dc3545"; "#6c757d"; "#0dcaf0"].

(** One bar of the stacked progress bar: its width in percent, its colour and
    the label inside it, printed only above five percent. *)
Record bar := {
  bar_range : string;
  bar_width : number;
  bar_color : option string;
  bar_label : option number
}.

Definition renderSentenceDistribution (dist : list (string * Z)) : list bar :=
  let total := total dist in
  imap (fun i entry =>
          let percentage := percentageOf (snd entry) total in
          {| bar_range := fst entry;
             bar_width := percentage;
             bar_color := colors !! (i mod length colors)%nat;
             bar_label := if gtb percentage (ofZ 5) then Some percentage else None |})
       dist.

End StyleMetrics.

(** ** More sample data *)

Module Scenarios.

(** A server whose first answer is lost and which then serves the document. *)
Definition flaky (n : nat) : DataLoader.fetched :=
  match n with
  | O => DataLoader.NetworkFailure
  | S _ => DataLoader.Response true 200 (Some Sample.analysis)
  end.

Definition ecce_ngrams : NGramList.ngramSets :=
  {| NGramList.bigrams := [ {| NGramList.phrase := "will power"; NGramList.ngram_count := 9 |};
                            {| NGramList.phrase := "good evil"; NGramList.ngram_count := 4 |} ];
     NGramList.trigrams := [ {| NGramList.phrase := "thus spake zarathustra";
                                NGramList.ngram_count := 3 |} ] |}.

Definition antichrist_ngrams : NGramList.ngramSets :=
  {| NGramList.bigrams := [ {| NGramList.phrase := "christian church";
                               NGramList.ngram_count := 6 |} ];
     NGramList.trigrams := [] |}.

(** Sentence lengths of a short text, by band. *)
(** Two texts named after the first two vocabularies of the sample corpus. *)
Definition text_a : text :=
  {| id := "a"; title := "A"; word_count := 3; unique_words := 3;
     positive := Fin 0; negative := Fin 0; neutral := Fin 1; compound := Fin 0;
     style_metrics := JNull; key_concepts := []; top_100 := [] |}.

Definition text_b : text :=
  {| id := "b"; title := "B"; word_count := 3; unique_words := 3;
     positive := Fin 0; negative := Fin 0; neutral := Fin 1; compound := Fin 0;
     style_metrics := JNull; key_concepts := []; top_100 := [] |}.

Definition sentence_lengths : list (string * Z) :=
  [("1-10", 1%Z); ("11-20", 14%Z); ("21-30", 5%Z); ("31+", 0%Z)].

End Scenarios.

(** * Properties *)

(** ** Numbers *)

Section NumberFacts.

Local Open Scope Q_scope.

Lemma geb_le (a b : number) : geb a b = true <-> le b a.
Proof.
  destruct a, b; simpl; try tauto; try (split; [discriminate | tauto]).
  apply Qle_bool_iff.
Qed.

Lemma gtb_lt (a b : number) : gtb a b = true <-> lt b a.
Proof.
  destruct a as [p| | |], b as [q| | |]; simpl;
    try tauto; try (split; [discriminate | tauto]).
  rewrite negb_true_iff, <- not_true_iff_false, Qle_bool_iff.
  split; [apply Qnot_le_lt | apply Qlt_not_le].
Qed.

Lemma lt_not_le (a b : number) : lt a b -> ~ le b a.
Proof.
  destruct a, b; simpl; try tauto. apply Qlt_not_le.
Qed.

Lemma geb_false_of_lt (a b : number) : lt a b -> geb a b = false.
Proof.
  intros H. apply not_true_iff_false. rewrite geb_le. by apply lt_not_le.
Qed.

Lemma eqb_same (a b : number) : eqb a b = true <-> same a b /\ a <> NaN.
Proof.
  destruct a, b; simpl; try (split; [discriminate | tauto]);
    try (split; [done | tauto]); try (split; [discriminate | intros [_ ?]; done]).
  rewrite Qeq_bool_iff. split; [done | tauto].
Qed.

End NumberFacts.

(** ** Sentiment labels *)

Section SentimentFacts.

Import Sentiment Overview.

Ltac pass_test H := rewrite (proj2 (geb_le _ _) H).
Ltac fail_test H := rewrite (geb_false_of_lt _ _ H).

(** C1: the label that [interpretSentiment] puts in its badge is the one of
    the threshold contract: Very Positive from 0.75, Positive from 0.5,
    Moderately Positive from 0.25, Neutral from -0.25, Moderately Negative
    from -0.5, Negative from -0.75, and Very Negative for every other score
    (anything below -0.75, and NaN). *)
Theorem interpretSentiment_thresholds (c : number) :
  (le (Fin (3 # 4)) c -> interpretation c = "Very Positive") /\
  (le (Fin (1 # 2)) c -> lt c (Fin (3 # 4)) -> interpretation c = "Positive") /\
  (le (Fin (1 # 4)) c -> lt c (Fin (1 # 2)) -> interpretation c = "Moderately Positive") /\
  (le (Fin (-1 # 4)) c -> lt c (Fin (1 # 4)) -> interpretation c = "Neutral") /\
  (le (Fin (-1 # 2)) c -> lt c (Fin (-1 # 4)) -> interpretation c = "Moderately Negative") /\
  (le (Fin (-3 # 4)) c -> lt c (Fin (-1 # 2)) -> interpretation c = "Negative") /\
  (~ le (Fin (-3 # 4)) c -> interpretation c = "Very Negative") /\
  interpretSentiment c = badge (color c) (interpretation c).
Proof.
  unfold interpretation, interpret.
  repeat split.
  - intros H. now pass_test H.
  - intros H L. fail_test L. now pass_test H.
  - intros H L. fail_test L.
    assert (L1 : lt c (Fin (3 # 4))) by (destruct c; simpl in *; try done; lra).
    fail_test L1. now pass_test H.
  - intros H L. fail_test L.
    assert (L1 : lt c (Fin (3 # 4))) by (destruct c; simpl in *; try done; lra).
    assert (L2 : lt c (Fin (1 # 2))) by (destruct c; simpl in *; try done; lra).
    fail_test L1. fail_test L2. now pass_test H.
  - intros H L. fail_test L.
    assert (L1 : lt c (Fin (3 # 4))) by (destruct c; simpl in *; try done; lra).
    assert (L2 : lt c (Fin (1 # 2))) by (destruct c; simpl in *; try done; lra).
    assert (L3 : lt c (Fin (1 # 4))) by (destruct c; simpl in *; try done; lra).
    fail_test L1. fail_test L2. fail_test L3. now pass_test H.
  - intros H L. fail_test L.
    assert (L1 : lt c (Fin (3 # 4))) by (destruct c; simpl in *; try done; lra).
    assert (L2 : lt c (Fin (1 # 2))) by (destruct c; simpl in *; try done; lra).
    assert (L3 : lt c (Fin (1 # 4))) by (destruct c; simpl in *; try done; lra).
    assert (L4 : lt c (Fin (-1 # 4))) by (destruct c; simpl in *; try done; lra).
    fail_test L1. fail_test L2. fail_test L3. fail_test L4. now pass_test H.
  - intros N.
    assert (F : forall t, le (Fin (-3 # 4)) (Fin t) -> geb c (Fin t) = false).
    { intros t Ht. apply not_true_iff_false. rewrite geb_le. intros Hc. apply N.
      destruct c; simpl in *; try done. lra. }
    rewrite !F; simpl; try done; lra.
Qed.

(** Each threshold band of C1 on one score. *)
Lemma interpretSentiment_thresholds_witness :
  interpretation (Fin (4 # 5)) = "Very Positive" /\
  interpretation (Fin (3 # 5)) = "Positive" /\
  interpretation (Fin (1 # 4)) = "Moderately Positive" /\
  interpretation (Fin 0) = "Neutral" /\
  interpretation (Fin (-1 # 2)) = "Moderately Negative" /\
  interpretation (Fin (-3 # 4)) = "Negative" /\
  interpretation NaN = "Very Negative".
Proof.
  refine (conj _ (conj _ (conj _ (conj _ (conj _ (conj _ _)))))).
  - apply (proj1 (interpretSentiment_thresholds (Fin (4 # 5)))). cbv [le]. lra.
  - apply (interpretSentiment_thresholds (Fin (3 # 5))); cbv [le lt]; lra.
  - apply (interpretSentiment_thresholds (Fin (1 # 4))); cbv [le lt]; lra.
  - apply (interpretSentiment_thresholds (Fin 0)); cbv [le lt]; lra.
  - apply (interpretSentiment_thresholds (Fin (-1 # 2))); cbv [le lt]; lra.
  - apply (interpretSentiment_thresholds (Fin (-3 # 4))); cbv [le lt]; lra.
  - apply (interpretSentiment_thresholds NaN). cbv [le]. tauto.
Defined.

Ltac split_tests :=
  repeat match goal with
         | |- context [Qle_bool ?a ?b] =>
             let E := fresh "E" in
             destruct (Qle_bool a b) eqn:E;
             [ apply Qle_bool_iff in E
             | apply not_true_iff_false in E; rewrite Qle_bool_iff in E ]
         end.

(** Where the overview label and the interpretation agree on a finite score:
    on four bands only, none of which contains a threshold of the overview
    panel. *)
Lemma sentimentLabel_agrees_iff (q : Q) :
  sentimentLabel (Fin q) = interpretation (Fin q) <->
  (((1 # 2) < q /\ q < (3 # 4)) \/ ((1 # 4) <= q /\ q < (1 # 2)) \/
   ((-1 # 2) < q /\ q < (-1 # 4)) \/ ((-3 # 4) <= q /\ q < (-1 # 2)))%Q.
Proof.
  unfold sentimentLabel, interpretation, interpret, geb, gtb.
  split_tests; simpl; (split; [intros L; try discriminate L; lra | intros L; try reflexivity; lra]).
Qed.

(** C2: the overview panel does not label a score as the threshold contract
    does.  On 0.8 it prints Positive where [interpretSentiment] prints Very
    Positive, on 0.5 Moderately Positive for Positive, on 0 Moderately
    Negative for Neutral, on -0.5 Negative for Moderately Negative and on
    -0.9 Negative for Very Negative. *)
Theorem sentimentLabel_departs_from_contract :
  (sentimentLabel (Fin (4 # 5)) = "Positive" /\
   interpretation (Fin (4 # 5)) = "Very Positive") /\
  (sentimentLabel (Fin (1 # 2)) = "Moderately Positive" /\
   interpretation (Fin (1 # 2)) = "Positive") /\
  (sentimentLabel (Fin 0) = "Moderately Negative" /\
   interpretation (Fin 0) = "Neutral") /\
  (sentimentLabel (Fin (-1 # 2)) = "Negative" /\
   interpretation (Fin (-1 # 2)) = "Moderately Negative") /\
  (sentimentLabel (Fin (-9 # 10)) = "Negative" /\
   interpretation (Fin (-9 # 10)) = "Very Negative") /\
  sentimentLabel (Fin (4 # 5)) <> interpretation (Fin (4 # 5)).
Proof.
  repeat split. discriminate.
Qed.

End SentimentFacts.

(** ** Minimum and maximum of finite numbers *)

Section Extrema.

Local Open Scope Q_scope.

Lemma Math_min_finite (qs : list Q) :
  qs <> [] ->
  exists lo, Math_min (List.map Fin qs) = Fin lo /\ In lo qs /\
             forall q, In q qs -> lo <= q.
Proof.
  induction qs as [|a qs IH]; [done | intros _].
  destruct qs as [|b qs].
  - exists a. simpl. repeat split; [tauto |]. intros q [<- | []]. lra.
  - destruct IH as (lo & E & I & B); [done |].
    change (Math_min (List.map Fin (a :: b :: qs)))
      with (min2 (Fin a) (Math_min (List.map Fin (b :: qs)))).
    rewrite E. simpl min2.
    destruct (Qle_bool a lo) eqn:T; simpl.
    + apply Qle_bool_iff in T. exists a. repeat split; [by left |].
      intros q [<- | Hq]; [lra |]. specialize (B q Hq). lra.
    + apply not_true_iff_false in T. rewrite Qle_bool_iff in T.
      exists lo. repeat split; [by right |].
      intros q [<- | Hq]; [lra | by apply B].
Qed.

Lemma Math_max_finite (qs : list Q) :
  qs <> [] ->
  exists hi, Math_max (List.map Fin qs) = Fin hi /\ In hi qs /\
             forall q, In q qs -> q <= hi.
Proof.
  induction qs as [|a qs IH]; [done | intros _].
  destruct qs as [|b qs].
  - exists a. simpl. repeat split; [tauto |]. intros q [<- | []]. lra.
  - destruct IH as (hi & E & I & B); [done |].
    change (Math_max (List.map Fin (a :: b :: qs)))
      with (max2 (Fin a) (Math_max (List.map Fin (b :: qs)))).
    rewrite E. simpl max2.
    destruct (Qle_bool hi a) eqn:T; simpl.
    + apply Qle_bool_iff in T. exists a. repeat split; [by left |].
      intros q [<- | Hq]; [lra |]. specialize (B q Hq). lra.
    + apply not_true_iff_false in T. rewrite Qle_bool_iff in T.
      exists hi. repeat split; [by right |].
      intros q [<- | Hq]; [lra | by apply B].
Qed.

End Extrema.

(** ** The style comparison table *)

Section StyleFacts.

Import Comparison.
Local Open Scope Q_scope.

Lemma allNumbers_finite (qs : list Q) :
  allNumbers (List.map (fun q => Some (JNum (Fin q))) qs) = Some (List.map Fin qs).
Proof.
  induction qs as [|q qs IH]; [done |]. simpl. by rewrite IH.
Qed.

Lemma className_extremal (q lo hi : Q) :
  (className (Fin q) (Fin lo) (Fin hi) = "bg-success bg-opacity-10" <-> q == hi) /\
  (className (Fin q) (Fin lo) (Fin hi) = "bg-primary bg-opacity-10"
   <-> q == lo /\ ~ q == hi) /\
  (className (Fin q) (Fin lo) (Fin hi) <> "" <-> q == lo \/ q == hi).
Proof.
  unfold className, eqb.
  destruct (Qeq_bool q hi) eqn:H.
  - apply Qeq_bool_iff in H. repeat split; try done; tauto.
  - apply Qeq_bool_neq in H.
    destruct (Qeq_bool q lo) eqn:L.
    + apply Qeq_bool_iff in L. repeat split; try done; tauto.
    + apply Qeq_bool_neq in L. repeat split; try done; tauto.
Qed.

(** C6: when the metric path leads to a number in every text of a non-empty
    list ([qs] are those numbers, in the order of the texts), the row of the
    style table is rendered, its [min] and [max] are the least and the
    greatest of the extracted values, its range is [max - min], there is one
    cell per text holding its value, and a cell carries a highlighting class
    exactly when its value is the minimum or the maximum: the class of the
    highest value on the maximum, the class of the lowest value on a minimum
    that is not also the maximum. *)
Theorem renderStyleRow_extrema (textsData : list text) (m : metric) (qs : list Q) :
  textsData <> [] ->
  List.map (fun t => getNestedValue (toObject t) (path m)) textsData
    = List.map (fun q => Some (JNum (Fin q))) qs ->
  exists row lo hi,
    renderStyleRow textsData m = Returned row /\
    (row_min row = Fin lo /\ In lo qs /\ forall q, In q qs -> lo <= q) /\
    (row_max row = Fin hi /\ In hi qs /\ forall q, In q qs -> q <= hi) /\
    row_range row = Fin (hi - lo) /\
    List.map cell_value (row_cells row) = List.map Fin qs /\
    Forall (fun cell => forall q, cell_value cell = Fin q ->
                        (cell_class cell = "bg-success bg-opacity-10" <-> q == hi) /\
                        (cell_class cell = "bg-primary bg-opacity-10"
                         <-> q == lo /\ ~ q == hi) /\
                        (cell_class cell <> "" <-> q == lo \/ q == hi))
           (row_cells row).
Proof.
  intros Hne Hvals.
  assert (Hqs : qs <> []).
  { intros ->. destruct textsData; [done | discriminate Hvals]. }
  destruct (Math_min_finite qs Hqs) as (lo & Elo & Ilo & Blo).
  destruct (Math_max_finite qs Hqs) as (hi & Ehi & Ihi & Bhi).
  unfold renderStyleRow. rewrite Hvals, allNumbers_finite.
  eexists _, lo, hi. split; [reflexivity |]. simpl.
  rewrite Elo, Ehi. simpl.
  repeat split; try done.
  - rewrite List.map_map. simpl. apply List.map_id.
  - apply Forall_forall. intros cell Hcell q Hq.
    apply list_elem_of_In, in_map_iff in Hcell. destruct Hcell as (v & <- & Hv).
    simpl in *. subst v. apply className_extremal.
Qed.

(** C6 on the sample corpus and the average sentence length. *)
Lemma renderStyleRow_extrema_witness :
  exists row lo hi,
    renderStyleRow [Sample.ecce_homo; Sample.antichrist; Sample.beyond]
                   {| key := "avg_sentence_length"; label := "Avg Sentence Length";
                      path := "style_metrics.sentences.avg_length"; unit := " words" |}
      = Returned row /\
    (row_min row = Fin lo /\ In lo [45 # 2; 19; 45 # 2] /\
     forall q, In q [45 # 2; 19; 45 # 2] -> lo <= q) /\
    (row_max row = Fin hi /\ In hi [45 # 2; 19; 45 # 2] /\
     forall q, In q [45 # 2; 19; 45 # 2] -> q <= hi) /\
    row_range row = Fin (hi - lo) /\
    List.map cell_value (row_cells row) = List.map Fin [45 # 2; 19; 45 # 2] /\
    Forall (fun cell => forall q, cell_value cell = Fin q ->
                        (cell_class cell = "bg-success bg-opacity-10" <-> q == hi) /\
                        (cell_class cell = "bg-primary bg-opacity-10"
                         <-> q == lo /\ ~ q == hi) /\
                        (cell_class cell <> "" <-> q == lo \/ q == hi))
           (row_cells row).
Proof.
  apply (renderStyleRow_extrema
           [Sample.ecce_homo; Sample.antichrist; Sample.beyond] _ [45 # 2; 19; 45 # 2]).
  - discriminate.
  - vm_compute. reflexivity.
Defined.

End StyleFacts.

(** ** The data loader *)

Section LoaderFacts.

Import DataLoader Comparison.

Lemma matches_comm (a b : string) (p : pair) : matches a b p = matches b a p.
Proof. unfold matches. apply orb_comm. Qed.

Lemma find_ext {A : Type} (f g : A -> bool) (l : list A) :
  (forall x, f x = g x) -> List.find f l = List.find g l.
Proof.
  intros E. induction l as [|x l IH]; [done |]. simpl. by rewrite E, IH.
Qed.

Lemma find_none_of_false {A : Type} (f : A -> bool) (l : list A) :
  (forall x, In x l -> f x = false) -> List.find f l = None.
Proof.
  induction l as [|x l IH]; [done |]. intros H. simpl.
  rewrite (H x) by (by left). apply IH. intros y Hy. apply H. by right.
Qed.

(** C4: the lookup of a pair does not depend on the order of the two ids: a
    stored record matches [(a, b)] exactly when it matches [(b, a)], and the
    two calls end in the same state with the same result. *)
Theorem getVocabularyOverlap_unordered (server : nat -> fetched) (a b : string)
    (st : loader) :
  (forall p, matches a b p = matches b a p) /\
  getVocabularyOverlap server a b st = getVocabularyOverlap server b a st.
Proof.
  split; [apply matches_comm |].
  unfold getVocabularyOverlap, bind.
  destruct (loadData server st) as [st' [data | e |]]; try done.
  do 2 f_equal. apply find_ext, matches_comm.
Qed.

(** A successful load leaves the returned object in the cache. *)
Lemma loadData_returned_cached (server : nat -> fetched) (st st' : loader) (data : object) :
  loadData server st = (st', Returned data) -> analysisData st' = Some data.
Proof.
  unfold loadData. destruct (analysisData st) as [d|] eqn:E.
  - intros [= <- <-]. done.
  - destruct (isLoading st); [done |].
    destruct (server (fetches st)) as [|ok status [doc|]]; try done;
      destruct ok; simpl; try done.
    by intros [= <- <-].
Qed.

Lemma loadData_of_cached (server : nat -> fetched) (st : loader) (data : object) :
  analysisData st = Some data -> loadData server st = (st, Returned data).
Proof. intros E. unfold loadData. by rewrite E. Qed.

(** C8: once a call of [loadData] has returned an object, every later call,
    whatever the network then does, returns that same object (same address,
    same content) and leaves the loader as it is, so no further fetch is
    counted; the four accessors answer from the content of that object. *)
Theorem loadData_fetch_once (server : nat -> fetched) (st st' : loader) (data : object) :
  loadData server st = (st', Returned data) ->
  forall (server' : nat -> fetched) (n : nat),
    Nat.iter n (fun s => fst (loadData server' s)) st' = st' /\
    loadData server' st' = (st', Returned data) /\
    fetches (fst (loadData server' st')) = fetches st' /\
    (forall textId,
        getTextById server' textId st'
        = (st', Returned (List.find (fun t => bool_decide (id t = textId))
                                    (texts (content data))))) /\
    getAllTexts server' st' = (st', Returned (texts (content data))) /\
    getComparativeData server' st' = (st', Returned (comparative (content data))) /\
    (forall a b,
        getVocabularyOverlap server' a b st'
        = (st', Returned (List.find (matches a b)
                            (pairs (vocabulary_overlap (comparative (content data))))))).
Proof.
  intros H server' n.
  apply loadData_returned_cached in H.
  pose proof (loadData_of_cached server' st' data H) as L.
  repeat split.
  - induction n as [|n IH]; [done |]. simpl. by rewrite IH, L.
  - done.
  - by rewrite L.
  - intros textId. unfold getTextById, bind. by rewrite L.
  - unfold getAllTexts, bind. by rewrite L.
  - unfold getComparativeData, bind. by rewrite L.
  - intros a b. unfold getVocabularyOverlap, bind. by rewrite L.
Qed.

(** C8 on the first load of the sample document: the second call is answered
    from the cache even by a server that is down. *)
Lemma loadData_fetch_once_witness :
  let st' := fst (loadData Sample.server initial) in
  let data := {| addr := 0; content := Sample.analysis |} in
  let down := fun _ : nat => NetworkFailure in
  loadData Sample.server initial = (st', Returned data) /\
  loadData down st' = (st', Returned data) /\
  fetches st' = 1%nat.
Proof.
  intros st' data down.
  assert (H : loadData Sample.server initial = (st', Returned data)) by reflexivity.
  split; [exact H |].
  split; [| reflexivity].
  exact (proj1 (proj2 (loadData_fetch_once Sample.server initial st' data H down 2))).
Defined.

(** C7: with the document loaded, a pair of ids that no stored record matches
    makes [getVocabularyOverlap] return [undefined] rather than throw; the
    overlap section of the two texts is then the not-available message, and
    the comparison view is rendered with its other sections whenever they
    render. *)
Theorem missing_pair_not_available (server : nat -> fetched) (st st' : loader)
    (data : object) (t0 t1 : text) (comparative : comparativeData) :
  loadData server st = (st', Returned data) ->
  (forall p, In p (pairs (vocabulary_overlap (Data.comparative (content data)))) ->
             matches (id t0) (id t1) p = false) ->
  getVocabularyOverlap server (id t0) (id t1) st = (st', Returned None) /\
  renderVocabularyOverlap server [t0; t1] comparative st = (st', Returned NotAvailable) /\
  forall overview style,
    renderOverview [t0; t1] = Returned overview ->
    renderStyleComparison [t0; t1] = Returned style ->
    display true server [t0; t1] comparative st
    = (st', Returned (Some {| view_overview := overview;
                              view_wordclouds := renderWordClouds [t0; t1];
                              view_style := style;
                              view_overlap := NotAvailable |})).
Proof.
  intros L Hnone.
  assert (G : getVocabularyOverlap server (id t0) (id t1) st = (st', Returned None)).
  { unfold getVocabularyOverlap, bind. rewrite L. by rewrite find_none_of_false. }
  assert (R : renderVocabularyOverlap server [t0; t1] comparative st
              = (st', Returned NotAvailable)).
  { unfold renderVocabularyOverlap, bind. by rewrite G. }
  repeat split; try done.
  intros overview style Ho Hs. unfold display. simpl negb. cbv iota.
  rewrite Ho, Hs. unfold bind. by rewrite R.
Qed.

(** C7 on the sample document, which stores no pair for Ecce Homo and Beyond
    Good and Evil. *)
Lemma missing_pair_not_available_witness :
  let st' := fst (loadData Sample.server initial) in
  getVocabularyOverlap Sample.server "ecce_homo" "beyond_good_and_evil" initial
    = (st', Returned None) /\
  renderVocabularyOverlap Sample.server [Sample.ecce_homo; Sample.beyond]
      (comparative Sample.analysis) initial
    = (st', Returned NotAvailable).
Proof.
  intros st'.
  assert (H : loadData Sample.server initial
              = (st', Returned {| addr := 0; content := Sample.analysis |}))
    by reflexivity.
  assert (N : forall p,
             In p (pairs (vocabulary_overlap (Data.comparative Sample.analysis))) ->
             matches (id Sample.ecce_homo) (id Sample.beyond) p = false).
  { intros p [<- | []]. reflexivity. }
  pose proof (missing_pair_not_available Sample.server initial st' _
                Sample.ecce_homo Sample.beyond (comparative Sample.analysis) H N) as W.
  split; [exact (proj1 W) | exact (proj1 (proj2 W))].
Defined.

End LoaderFacts.

(** ** The compare button *)

Section AppFacts.

Import App.
Local Open Scope list_scope.

Lemma showComparisonBody_calls (st : app) :
  calls (showComparisonBody st) = calls st \/
  (calls (showComparisonBody st) = calls st ++ [ComparisonDisplay (selectedTexts st)] /\
   (2 <= length (selectedTexts st))%nat).
Proof.
  unfold showComparisonBody.
  destruct (length (selectedTexts st) <? 2)%nat eqn:E; [by left | right].
  apply Nat.ltb_ge in E. done.
Qed.

Lemma handle_respectsContract (st : app) (e : event) :
  Forall respectsContract (calls st) -> Forall respectsContract (calls (handle st e)).
Proof.
  intros H. destruct e as [textId checked | |]; simpl.
  - done.
  - unfold compareClick.
    destruct (2 <=? size (selectedTextsForComparison st))%nat eqn:E; [| done].
    apply Nat.leb_le in E. unfold showComparison.
    set (st1 := record _ st).
    assert (H1 : Forall respectsContract (calls st1)).
    { subst st1. simpl. apply Forall_app. split; [done |]. by constructor. }
    destruct (showComparisonBody_calls st1) as [-> | [-> L]]; [done |].
    apply Forall_app. split; [done |]. by constructor.
  - apply Forall_app. split; [done |]. by constructor.
Qed.

Lemma run_respectsContract (events : list event) (st : app) :
  Forall respectsContract (calls st) -> Forall respectsContract (calls (run st events)).
Proof.
  revert st. induction events as [|e events IH]; intros st H; [done |].
  simpl. apply IH. by apply handle_respectsContract.
Qed.

(** C5: with fewer than two texts selected a click on the compare button
    does nothing; [showComparison] called on a selection that filters to
    fewer than two texts records its own call and no call of
    [Comparison.display]; and in every run of the interface, from the loaded
    texts and through any sequence of checkbox changes and clicks,
    [showComparison] is only ever called with two or more selected ids and
    [Comparison.display] with two or more texts. *)
Theorem comparison_needs_two_texts (st : app) (loaded : list text) (events : list event) :
  ((size (selectedTextsForComparison st) < 2)%nat -> compareClick st = st) /\
  ((length (selectedTexts st) < 2)%nat ->
     calls (showComparison st)
     = calls st ++ [ShowComparison (selectedTextsForComparison st)]) /\
  Forall respectsContract (calls (run (start loaded) events)).
Proof.
  repeat split.
  - intros H. unfold compareClick.
    destruct (2 <=? size (selectedTextsForComparison st))%nat eqn:E; [| done].
    apply Nat.leb_le in E. lia.
  - intros H. unfold showComparison, showComparisonBody.
    change (selectedTexts (record _ st)) with (selectedTexts st).
    apply Nat.ltb_lt in H. by rewrite H.
  - apply run_respectsContract. constructor.
Qed.

(** C5 on the sample texts: one box ticked, the click is ignored. *)
Lemma comparison_needs_two_texts_witness :
  let st := run (start (texts Sample.analysis)) [CheckboxChange "ecce_homo" true] in
  compareClick st = st /\
  calls (showComparison st) = [ShowComparison {["ecce_homo"]}] /\
  Forall respectsContract
    (calls (run (start (texts Sample.analysis))
                [CheckboxChange "ecce_homo" true; CompareClick;
                 CheckboxChange "antichrist" true; CompareClick; CloseClick])).
Proof.
  intros st.
  pose proof (comparison_needs_two_texts st (texts Sample.analysis)
                [CheckboxChange "ecce_homo" true; CompareClick;
                 CheckboxChange "antichrist" true; CompareClick; CloseClick])
    as (A & B & C).
  split; [apply A; vm_compute; lia |].
  split; [| exact C].
  rewrite B; [| vm_compute; lia]. vm_compute. reflexivity.
Defined.

End AppFacts.

(** ** The concept comparison table *)

Section ConceptFacts.

Import NGrams.
Local Open Scope list_scope.

Lemma setAdd_In (s : list string) (x y : string) :
  In y (setAdd s x) <-> In y s \/ y = x.
Proof.
  unfold setAdd. case_bool_decide as E.
  - split; [tauto |]. intros [? | ->]; [done |]. by apply list_elem_of_In.
  - rewrite in_app_iff. simpl. intuition.
Qed.

Lemma setAdd_NoDup (s : list string) (x : string) :
  List.NoDup s -> List.NoDup (setAdd s x).
Proof.
  intros H. unfold setAdd. case_bool_decide as E; [done |].
  apply NoDup_ListNoDup, NoDup_app. repeat split.
  - by apply NoDup_ListNoDup.
  - intros y Hy ->%list_elem_of_singleton. done.
  - apply NoDup_singleton.
Qed.

Lemma addTerms_spec (cs : list concept) (acc : list string) :
  List.NoDup acc ->
  List.NoDup (fold_left (fun acc c => setAdd acc (term c)) cs acc) /\
  forall tm, In tm (fold_left (fun acc c => setAdd acc (term c)) cs acc)
             <-> In tm acc \/ exists c, In c cs /\ term c = tm.
Proof.
  revert acc. induction cs as [|c cs IH]; intros acc H; simpl.
  - split; [done |]. intros tm. split; [tauto |]. intros [? | (c & [] & _)]. done.
  - destruct (IH (setAdd acc (term c)) (setAdd_NoDup _ _ H)) as [N M].
    split; [done |]. intros tm. rewrite M, setAdd_In. split.
    + intros [[? | ->] | (c' & ? & ?)]; eauto.
    + intros [? | (c' & [<- | ?] & ?)]; eauto.
Qed.

Lemma collectConcepts_from (textsData : list text) (acc : list string) :
  List.NoDup acc ->
  let all := fold_left (fun acc t =>
                          fold_left (fun acc c => setAdd acc (term c)) (key_concepts t) acc)
                       textsData acc in
  List.NoDup all /\
  forall tm, In tm all
             <-> In tm acc \/ exists t c, In t textsData /\ In c (key_concepts t) /\ term c = tm.
Proof.
  revert acc. induction textsData as [|t ts IH]; intros acc H; simpl.
  - split; [done |]. intros tm. split; [tauto |]. intros [? | (t & c & [] & _)]. done.
  - destruct (addTerms_spec (key_concepts t) acc H) as [N M].
    destruct (IH _ N) as [N' M']. split; [done |].
    intros tm. rewrite M', M. split.
    + intros [[? | (c & ? & ?)] | (t' & c & ? & ? & ?)]; eauto 10.
    + intros [? | (t' & c & [<- | ?] & ? & ?)]; eauto 10.
Qed.

Lemma countIn_absent (t : text) (tm : string) :
  (forall c, In c (key_concepts t) -> term c <> tm) -> countIn t tm = 0%Z.
Proof.
  intros H. unfold countIn.
  destruct (List.find _ (key_concepts t)) as [c|] eqn:E; [| done].
  apply find_some in E. destruct E as [I E]. apply bool_decide_eq_true in E.
  by destruct (H c I).
Qed.

(** The rows of the concept table: it is rendered for every list of texts;
    its rows are the concept terms of the texts' key concepts, each term
    once; every row has one cell per text; and the cell of a text that does
    not have the term counts 0, is muted and prints the literal of the
    source. *)
Lemma concept_rows_union (textsData : list text) :
  exists table,
    displayConceptComparison true textsData = Some table /\
    List.NoDup (List.map fst (rows table)) /\
    (forall tm, In tm (List.map fst (rows table))
                <-> exists t c, In t textsData /\ In c (key_concepts t) /\ term c = tm) /\
    (forall tm cells, In (tm, cells) (rows table) ->
       length cells = length textsData /\
       forall i t, textsData !! i = Some t ->
                   (forall c, In c (key_concepts t) -> term c <> tm) ->
                   countIn t tm = 0%Z /\
                   cells !! i = Some {| concept_class := "text-muted";
                                        concept_shown := Printed "â€”" |}).
Proof.
  eexists. split; [reflexivity |]. simpl.
  rewrite List.map_map. simpl. rewrite List.map_id.
  destruct (collectConcepts_from textsData [] (List.NoDup_nil _)) as [N M].
  split; [exact N |]. split.
  - intros tm. unfold collectConcepts. rewrite M. simpl. tauto.
  - intros tm cells Hrow. apply in_map_iff in Hrow.
    destruct Hrow as (tm' & [= <- <-] & _).
    split; [apply length_map |].
    intros i t Hi Habs. pose proof (countIn_absent t tm' Habs) as Z0.
    split; [done |].
    rewrite list_lookup_fmap, Hi. simpl. unfold conceptCellOf. by rewrite Z0.
Qed.

(** The rows on the sample texts: The Antichrist has no entry for the second
    concept. *)
Lemma concept_rows_union_witness :
  exists table,
    displayConceptComparison true [Sample.ecce_homo; Sample.antichrist; Sample.beyond]
      = Some table /\
    List.map fst (rows table) = ["will to power"; term (Sample.overman 0)] /\
    forall cells, In (term (Sample.overman 0), cells) (rows table) ->
                  cells !! 1%nat = Some {| concept_class := "text-muted";
                                           concept_shown := Printed "â€”" |}.
Proof.
  destruct (concept_rows_union [Sample.ecce_homo; Sample.antichrist; Sample.beyond])
    as (table & E & _ & _ & C).
  exists table. split; [exact E |].
  split; [by injection E as <- |].
  intros cells Hc.
  apply (proj2 (C _ cells Hc) 1%nat Sample.antichrist); [reflexivity |].
  intros c [<- | []]. discriminate.
Defined.

(** C9: the cell of a text that lacks the term is not rendered as a dash.
    For Ecce Homo and The Antichrist the table has the two terms as its
    rows, once each, and The Antichrist, which has no entry for the second
    term, counts 0 there; but its cell prints the eight bytes
    C3 A2 E2 82 AC E2 80 9D, the three characters U+00E2 U+20AC U+201D that
    an em dash (bytes E2 80 94) becomes when its UTF-8 bytes are read as
    Windows-1252 and saved again. *)
Theorem concept_cell_misprints_dash :
  displayConceptComparison true [Sample.ecce_homo; Sample.antichrist]
  = Some {| headings := ["Ecce Homo"; "The Antichrist"];
            rows := [ ("will to power",
                       [ {| concept_class := ""; concept_shown := Count 12 |};
                         {| concept_class := ""; concept_shown := Count 7 |} ]);
                      (term (Sample.overman 0),
                       [ {| concept_class := ""; concept_shown := Count 3 |};
                         {| concept_class := "text-muted";
                            concept_shown := Printed "â€”" |} ]) ] |} /\
  countIn Sample.antichrist (term (Sample.overman 0)) = 0%Z /\
  List.map nat_of_ascii (list_ascii_of_string "â€”")
  = [195; 162; 226; 130; 172; 226; 128; 157]%nat /\
  List.map nat_of_ascii (list_ascii_of_string "—") = [226; 128; 148]%nat /\
  concept_shown (conceptCellOf (term (Sample.overman 0)) Sample.antichrist)
  <> Printed "—".
Proof.
  repeat split. discriminate.
Qed.

End ConceptFacts.

(** ** Font sizes of the word cloud *)

Section CloudFacts.

Import WordCloud.
Local Open Scope Q_scope.

Lemma sign_Gt (q : Q) : 0 < q -> sign q = Gt.
Proof.
  unfold sign, Qlt. simpl. intros H. apply Z.compare_gt_iff. lia.
Qed.

Lemma sign_Eq (q : Q) : q == 0 -> sign q = Eq.
Proof.
  unfold sign, Qeq. simpl. intros H. apply Z.compare_eq_iff. lia.
Qed.

Lemma counts_finite (wordData : list wordCount) :
  counts wordData = List.map Fin (List.map (fun w => inject_Z (count w)) wordData).
Proof. unfold counts, ofZ. by rewrite List.map_map. Qed.

(** The scaled position of a count between the extremes. *)
Lemma ratio_bounds (c lo hi : Q) :
  lo < hi -> lo <= c -> c <= hi -> 0 <= (c - lo) / (hi - lo) /\ (c - lo) / (hi - lo) <= 1.
Proof.
  intros H L U. split.
  - apply Qle_shift_div_l; lra.
  - apply Qle_shift_div_r; lra.
Qed.

Lemma ratio_monotone (c c' lo hi : Q) :
  lo < hi -> c <= c' -> (c - lo) / (hi - lo) <= (c' - lo) / (hi - lo).
Proof.
  intros H L. unfold Qdiv. apply Qmult_le_compat_r; [lra |].
  apply Qinv_le_0_compat. lra.
Qed.

(** C10: for two words [w] and [w'] of the list, when the smallest count is
    strictly below the largest, both font sizes are finite numbers between
    12 and 60 and the size does not decrease with the count; when it is not
    (all counts are equal, as in a list of one word), the division is 0 / 0
    and the font size is NaN. *)
Theorem fontSize_range (wordData : list wordCount) (w w' : wordCount) :
  In w wordData -> In w' wordData ->
  (JsNumber.lt (minCount wordData) (maxCount wordData) ->
     exists s s', fontSize wordData w = Fin s /\ fontSize wordData w' = Fin s' /\
                  12 <= s /\ s <= 60 /\
                  ((count w <= count w')%Z -> s <= s')) /\
  (~ JsNumber.lt (minCount wordData) (maxCount wordData) -> fontSize wordData w = NaN).
Proof.
  intros Hw Hw'.
  set (qs := List.map (fun w => inject_Z (count w)) wordData).
  assert (Iw : In (inject_Z (count w)) qs)
    by (by apply (in_map (fun w => inject_Z (count w)))).
  assert (Iw' : In (inject_Z (count w')) qs)
    by (by apply (in_map (fun w => inject_Z (count w)))).
  assert (Hqs : qs <> []) by (by destruct qs).
  destruct (Math_min_finite qs Hqs) as (lo & Elo & Ilo & Blo).
  destruct (Math_max_finite qs Hqs) as (hi & Ehi & Ihi & Bhi).
  unfold fontSize, minCount, maxCount. rewrite counts_finite. fold qs.
  rewrite Elo, Ehi. unfold ofZ. simpl JsNumber.lt. simpl sub.
  pose proof (Blo _ Iw) as Lw. pose proof (Bhi _ Iw) as Uw.
  pose proof (Blo _ Iw') as Lw'. pose proof (Bhi _ Iw') as Uw'.
  split.
  - intros H. unfold div. rewrite sign_Gt by lra. simpl.
    eexists _, _. split; [reflexivity |]. split; [reflexivity |].
    destruct (ratio_bounds _ lo hi H Lw Uw) as [R0 R1].
    change (inject_Z 12) with 12. change (inject_Z 48) with 48.
    split; [lra |]. split; [lra |].
    intros Hc.
    assert (M : (inject_Z (count w) - lo) / (hi - lo)
                <= (inject_Z (count w') - lo) / (hi - lo)).
    { apply ratio_monotone; [done |]. by rewrite <- Zle_Qle. }
    lra.
  - intros H. apply Qnot_lt_le in H.
    pose proof (Bhi _ Ilo) as LH.
    unfold div. rewrite (sign_Eq (hi - lo)) by lra.
    rewrite (sign_Eq (inject_Z (count w) - lo)) by lra.
    reflexivity.
Qed.

(** C10 on the three most frequent words of the sample text (counts 90, 50
    and 10). *)
Lemma fontSize_range_witness :
  let wordData := top_100 Sample.ecce_homo in
  let god := {| word := "god"; count := 10 |} in
  let life := {| word := "life"; count := 90 |} in
  exists s s', fontSize wordData god = Fin s /\ fontSize wordData life = Fin s' /\
               12 <= s /\ s <= 60 /\ s <= s'.
Proof.
  intros wordData god life.
  destruct (proj1 (fontSize_range wordData god life
                     (or_intror (or_intror (or_introl eq_refl)))
                     (or_introl eq_refl)))
    as (s & s' & E & E' & L & U & M).
  - vm_compute. reflexivity.
  - exists s, s'. repeat split; try done. apply M. subst god life. simpl. lia.
Defined.

End CloudFacts.

(** ** The similarity matrix *)

Section MatrixFacts.

Import Pipeline.

Implicit Types (m : gmap string (gmap string number)) (corpus later : list vocabularySet).

Lemma jaccard_comm (A B : gset string) : jaccard A B = jaccard B A.
Proof.
  unfold jaccard.
  by rewrite (comm_L (∪) A B), (comm_L (∩) A B).
Qed.

Lemma jaccard_self (A : gset string) : A <> ∅ -> same (jaccard A A) (Fin 1).
Proof.
  intros H. unfold jaccard.
  rewrite (idemp_L (∪) A), (idemp_L (∩) A).
  assert (size A <> 0%nat) by (by intros ?%size_empty_inv%leibniz_equiv).
  case_bool_decide; [done |]. simpl. unfold Qeq. simpl.
  rewrite Z.mul_1_r, Z.mul_1_l.
  destruct (size A) as [|n]; [done |].
  by rewrite <- Pos.of_nat_succ, Zpos_P_of_succ_nat, Nat2Z.inj_succ.
Qed.

Lemma entry_setEntry m (i j i' j' : string) (v : number) :
  entry (setEntry i j v m) i' j'
  = if bool_decide (i = i' /\ j = j') then Some v else entry m i' j'.
Proof.
  unfold entry, setEntry.
  destruct (decide (i = i')) as [<- | Hi].
  - rewrite lookup_insert_eq. simpl.
    destruct (decide (j = j')) as [<- | Hj].
    + rewrite lookup_insert_eq. by rewrite bool_decide_eq_true_2.
    + rewrite lookup_insert_ne by done.
      rewrite bool_decide_eq_false_2 by tauto.
      by destruct (m !! i).
  - rewrite lookup_insert_ne by done.
    by rewrite bool_decide_eq_false_2 by tauto.
Qed.

Lemma symmetric_diagonal m (i : string) (v : number) :
  symmetric m -> symmetric (setEntry i i v m).
Proof.
  intros S a b. rewrite !entry_setEntry.
  repeat case_bool_decide; try done; naive_solver.
Qed.

Lemma symmetric_mirrored m (a b : string) (v : number) :
  symmetric m -> symmetric (setEntry b a v (setEntry a b v m)).
Proof.
  intros S i j. rewrite !entry_setEntry.
  repeat case_bool_decide; try done; naive_solver.
Qed.

Lemma mirror_symmetric (a : vocabularySet) later m :
  symmetric m -> symmetric (mirror a later m).
Proof.
  unfold mirror. revert m. induction later as [|b later IH]; intros m S; [done |].
  simpl. apply IH. by apply symmetric_mirrored.
Qed.

Lemma fill_symmetric corpus m : symmetric m -> symmetric (fill corpus m).
Proof.
  revert m. induction corpus as [|a later IH]; intros m S; [done |].
  simpl. apply IH, mirror_symmetric. by apply symmetric_diagonal.
Qed.

Lemma mirror_diagonal (a : vocabularySet) later m (i : string) :
  text_id a ∉ text_id <$> later ->
  entry (mirror a later m) i i = entry m i i.
Proof.
  unfold mirror. revert m. induction later as [|b later IH]; intros m H; [done |].
  simpl in *. apply not_elem_of_cons in H as [Hne H].
  rewrite IH by done. rewrite !entry_setEntry.
  repeat case_bool_decide; try done; naive_solver.
Qed.

Lemma fill_diagonal corpus m (i : string) :
  NoDup (text_id <$> corpus) ->
  entry (fill corpus m) i i
  = if bool_decide (i ∈ text_id <$> corpus) then Some (Fin 1) else entry m i i.
Proof.
  revert m. induction corpus as [|a later IH]; intros m H; [done |].
  simpl in *. apply NoDup_cons in H as [Ha H].
  rewrite IH by done. rewrite mirror_diagonal by done. rewrite entry_setEntry.
  repeat case_bool_decide; try done; set_solver.
Qed.

Lemma setEntry_keeps m (i j a b : string) (v : number) :
  is_Some (entry m a b) -> is_Some (entry (setEntry i j v m) a b).
Proof.
  intros H. rewrite entry_setEntry. by case_bool_decide.
Qed.

Lemma mirror_keeps (a : vocabularySet) later m (i j : string) :
  is_Some (entry m i j) -> is_Some (entry (mirror a later m) i j).
Proof.
  unfold mirror. revert m. induction later as [|b later IH]; intros m H; [done |].
  simpl. by apply IH, setEntry_keeps, setEntry_keeps.
Qed.

Lemma fill_keeps corpus m (i j : string) :
  is_Some (entry m i j) -> is_Some (entry (fill corpus m) i j).
Proof.
  revert m. induction corpus as [|a later IH]; intros m H; [done |].
  simpl. by apply IH, mirror_keeps, setEntry_keeps.
Qed.

Lemma mirror_defines (a : vocabularySet) later m (j : string) :
  j ∈ text_id <$> later ->
  is_Some (entry (mirror a later m) (text_id a) j) /\
  is_Some (entry (mirror a later m) j (text_id a)).
Proof.
  unfold mirror. revert m. induction later as [|b later IH]; intros m H.
  - by apply elem_of_nil in H.
  - simpl in *. apply elem_of_cons in H as [-> | H]; [| by apply IH].
    split; apply (mirror_keeps a later); rewrite !entry_setEntry;
      repeat case_bool_decide; try done; naive_solver.
Qed.

Lemma fill_defines corpus m (i j : string) :
  i ∈ text_id <$> corpus -> j ∈ text_id <$> corpus ->
  is_Some (entry (fill corpus m) i j).
Proof.
  revert m. induction corpus as [|a later IH]; intros m Hi Hj.
  - by apply elem_of_nil in Hi.
  - simpl in *. apply elem_of_cons in Hi as [-> | Hi]; apply elem_of_cons in Hj as [-> | Hj].
    + apply fill_keeps, mirror_keeps. rewrite entry_setEntry.
      by rewrite bool_decide_eq_true_2.
    + by apply fill_keeps, mirror_defines.
    + by apply fill_keeps, mirror_defines.
    + by apply IH.
Qed.

(** C3: in the similarity matrix that the comparative engine builds for a
    corpus of texts with distinct ids, the entry of every ordered pair of
    text ids is defined, the entries [(i, j)] and [(j, i)] are the same
    number, and the entry [(i, i)] is exactly 1. *)
Theorem similarityMatrix_symmetric_unit_diagonal corpus (i j : string) :
  NoDup (text_id <$> corpus) ->
  i ∈ text_id <$> corpus -> j ∈ text_id <$> corpus ->
  (exists v, entry (similarityMatrix corpus) i j = Some v /\
             entry (similarityMatrix corpus) j i = Some v) /\
  entry (similarityMatrix corpus) i i = Some (Fin 1).
Proof.
  intros N Hi Hj. unfold similarityMatrix. split.
  - destruct (fill_defines corpus ∅ i j Hi Hj) as [v E].
    exists v. split; [done |]. by rewrite <- (fill_symmetric corpus ∅).
  - rewrite fill_diagonal by done. by rewrite bool_decide_eq_true_2.
Qed.

(** C3 on the sample corpus of three vocabularies. *)
Lemma similarityMatrix_symmetric_unit_diagonal_witness :
  (exists v, entry (similarityMatrix Sample.corpus) "a" "b" = Some v /\
             entry (similarityMatrix Sample.corpus) "b" "a" = Some v) /\
  entry (similarityMatrix Sample.corpus) "a" "a" = Some (Fin 1).
Proof.
  apply (similarityMatrix_symmetric_unit_diagonal Sample.corpus "a" "b").
  - simpl. repeat (apply NoDup_cons; split; [set_solver |]). apply NoDup_nil_2.
  - set_solver.
  - set_solver.
Defined.

(** What the dashboard makes of such an entry: the cell of the similarity
    table is rendered from it, without a throw. *)
Lemma matrixCellOf_entry m (t1 t2 : text) (v : number) :
  entry m (id t1) (id t2) = Some v ->
  Comparison.matrixCellOf m t1 t2
  = Returned {| Comparison.percentage := mul v (ofZ 100);
                Comparison.colorIntensity :=
                  if bool_decide (id t1 = id t2) then None
                  else Some (Comparison.floor (mul v (ofZ 200))) |}.
Proof.
  unfold entry, Comparison.matrixCellOf.
  destruct (m !! id t1) as [row|]; [| done]. simpl. by intros ->.
Qed.

End MatrixFacts.

(** * Further properties of the modules *)

(** ** The data loader over a session *)

Section LoaderRunFacts.

Import DataLoader LoaderRuns.

Lemma bind_state {A B : Type} (m : loader -> loader * outcome A) (k : A -> B) (st : loader) :
  fst (bind m k st) = fst (m st).
Proof. unfold bind. by destruct (m st) as [st' [a | e |]]. Qed.

(** Every API call moves the loader as [loadData] does, or clears the cache. *)
Lemma perform_cases (server : nat -> fetched) (st : loader) (op : operation) :
  perform server st op = fst (loadData server st) \/ perform server st op = clearCache st.
Proof.
  destruct op; simpl;
    unfold getTextById, getAllTexts, getComparativeData, getVocabularyOverlap;
    rewrite ?bind_state; auto.
Qed.

Lemma loadData_settled (server : nat -> fetched) (st : loader) :
  settled st ->
  settled (fst (loadData server st)) /\
  (fetches st <= fetches (fst (loadData server st)) <= S (fetches st))%nat.
Proof.
  intros [L A]. unfold loadData.
  destruct (analysisData st) as [d|] eqn:E; simpl.
  - split; [split; [done | by rewrite E] | lia].
  - rewrite L.
    destruct (server (fetches st)) as [|[] status [doc|]]; simpl;
      (split; [split; [done |]; simpl; try done | lia]).
    intros data [= <-]. simpl. lia.
Qed.

Lemma clearCache_settled (st : loader) : settled st -> settled (clearCache st).
Proof. intros [L A]. split; [done | by simpl]. Qed.

Lemma run_settled (server : nat -> fetched) (ops : list operation) :
  settled (run server ops) /\ (fetches (run server ops) <= length ops)%nat.
Proof.
  unfold run.
  assert (G : forall st n, settled st -> (fetches st <= n)%nat ->
                settled (fold_left (perform server) ops st) /\
                (fetches (fold_left (perform server) ops st) <= n + length ops)%nat).
  { induction ops as [|op ops IH]; intros st n S F; simpl; [split; [done | lia] |].
    destruct (loadData_settled server st S) as [S1 F1].
    destruct (perform_cases server st op) as [-> | ->].
    - destruct (IH _ (Datatypes.S n) S1 ltac:(lia)) as [? ?]. split; [done | lia].
    - destruct (IH _ n (clearCache_settled st S) F) as [? ?]. split; [done | lia]. }
  apply (G initial 0%nat); [| simpl; lia].
  split; [done | intros data [=]].
Qed.

(** X1: in a session, that is after any sequence of API calls from the
    initial loader, the loading flag is down, so [loadData] never waits for
    another load; the number of fetches issued is at most the number of
    calls; and the cached object, when there is one, was allocated by one of
    those fetches. *)
Theorem session_never_blocks (server : nat -> fetched) (ops : list operation) :
  isLoading (run server ops) = false /\
  (forall st', loadData server (run server ops) <> (st', Blocked)) /\
  (fetches (run server ops) <= length ops)%nat /\
  (forall data, analysisData (run server ops) = Some data ->
                (addr data < fetches (run server ops))%nat).
Proof.
  destruct (run_settled server ops) as [[L A] F].
  repeat split; try done.
  intros st'. unfold loadData. rewrite L.
  destruct (analysisData (run server ops)); [done |].
  destruct (server (fetches (run server ops))) as [|[] status [doc|]]; done.
Qed.

(** X1 on a session that loads, clears the cache and reads the texts. *)
Lemma session_never_blocks_witness :
  let st := run Sample.server [LoadData; ClearCache; GetAllTexts] in
  analysisData st = Some {| addr := 1; content := Sample.analysis |} /\
  (1 < fetches st)%nat /\ (fetches st <= 3)%nat.
Proof.
  intros st.
  destruct (session_never_blocks Sample.server [LoadData; ClearCache; GetAllTexts])
    as (_ & _ & F & A).
  split; [reflexivity |]. split; [| exact F].
  exact (A {| addr := 1; content := Sample.analysis |} eq_refl).
Defined.

(** X2: a load that throws caches nothing, lowers the loading flag and has
    used one fetch; the next call fetches again, and when that fetch
    succeeds it returns the new document in a new object. *)
Theorem loadData_failure_retries (server : nat -> fetched) (st st' : loader) (e : string) :
  loadData server st = (st', Threw e) ->
  analysisData st' = None /\ isLoading st' = false /\
  fetches st' = S (fetches st) /\
  forall status doc,
    server (S (fetches st)) = Response true status (Some doc) ->
    loadData server st'
    = ({| analysisData := Some {| addr := S (fetches st); content := doc |};
          isLoading := false;
          fetches := S (S (fetches st)) |},
       Returned {| addr := S (fetches st); content := doc |}).
Proof.
  unfold loadData at 1.
  destruct (analysisData st) as [d|]; [done |].
  destruct (isLoading st); [done |].
  assert (forall msg,
             ({| analysisData := None; isLoading := false; fetches := S (fetches st) |},
              @Threw object msg) = (st', Threw e) ->
             analysisData st' = None /\ isLoading st' = false /\
             fetches st' = S (fetches st) /\
             forall status doc,
               server (S (fetches st)) = Response true status (Some doc) ->
               loadData server st'
               = ({| analysisData := Some {| addr := S (fetches st); content := doc |};
                     isLoading := false;
                     fetches := S (S (fetches st)) |},
                  Returned {| addr := S (fetches st); content := doc |})) as K.
  { intros msg [= <- _]. repeat split. intros status doc H.
    unfold loadData. simpl. by rewrite H. }
  destruct (server (fetches st)) as [|[] status [doc|]]; simpl; try done; apply K.
Qed.

(** X3: in a session with a cached object, [clearCache] makes the next
    [loadData] fetch again; what it then returns is a new object, at the
    address of that fetch, never the object cached before. *)
Theorem clearCache_refetches (server : nat -> fetched) (ops : list operation)
    (old new : object) (st' : loader) :
  analysisData (run server ops) = Some old ->
  loadData server (clearCache (run server ops)) = (st', Returned new) ->
  addr new = fetches (run server ops) /\
  addr new <> addr old /\
  fetches st' = S (fetches (run server ops)) /\
  analysisData st' = Some new.
Proof.
  intros Hold.
  destruct (run_settled server ops) as [[L A] _].
  specialize (A old Hold).
  unfold loadData, clearCache. simpl. rewrite L.
  destruct (server (fetches (run server ops))) as [|[] status [doc|]]; simpl; try done.
  intros [= <- <-]. simpl. repeat split; try done. lia.
Qed.

(** X2 on a server whose first answer is lost. *)
Lemma loadData_failure_retries_witness :
  let st' := {| analysisData := None; isLoading := false; fetches := 1 |} in
  loadData Scenarios.flaky initial = (st', Threw "fetch failed") /\
  loadData Scenarios.flaky st'
  = ({| analysisData := Some {| addr := 1; content := Sample.analysis |};
        isLoading := false; fetches := 2 |},
     Returned {| addr := 1; content := Sample.analysis |}).
Proof.
  intros st'.
  assert (H : loadData Scenarios.flaky initial = (st', Threw "fetch failed"))
    by reflexivity.
  split; [exact H |].
  exact (proj2 (proj2 (proj2 (loadData_failure_retries _ _ _ _ H)))
               200%nat Sample.analysis eq_refl).
Defined.

(** X3 after one load of the sample document. *)
Lemma clearCache_refetches_witness :
  let old := {| addr := 0; content := Sample.analysis |} in
  let new := {| addr := 1; content := Sample.analysis |} in
  analysisData (run Sample.server [LoadData]) = Some old /\
  addr new = fetches (run Sample.server [LoadData]) /\
  addr new <> addr old.
Proof.
  intros old new.
  assert (H : analysisData (run Sample.server [LoadData]) = Some old) by reflexivity.
  split; [exact H |].
  destruct (clearCache_refetches Sample.server [LoadData] old new
              {| analysisData := Some new; isLoading := false; fetches := 2 |}
              H eq_refl) as (A & B & _).
  split; [exact A | exact B].
Defined.

(** A returned accessor read the cache of the state it leaves. *)
Lemma bind_returned {B : Type} (server : nat -> fetched) (k : object -> B)
    (st st' : loader) (r : B) :
  bind (loadData server) k st = (st', Returned r) ->
  exists data, analysisData st' = Some data /\ r = k data.
Proof.
  unfold bind. destruct (loadData server st) as [st1 [data | e |]] eqn:L; try done.
  intros [= <- <-]. exists data. split; [| done].
  by apply loadData_returned_cached in L.
Qed.

(** X4: when [getTextById] returns, it has read the cached document: a text
    it returns is one of the document's texts and has the id asked for, and
    it returns [undefined] only when no text of the document has that id. *)
Theorem getTextById_found (server : nat -> fetched) (textId : string)
    (st st' : loader) (r : option text) :
  getTextById server textId st = (st', Returned r) ->
  exists data,
    analysisData st' = Some data /\
    match r with
    | Some t => In t (texts (content data)) /\ id t = textId
    | None => forall t, In t (texts (content data)) -> id t <> textId
    end.
Proof.
  intros H. unfold getTextById in H. apply bind_returned in H as (data & C & ->).
  exists data. split; [done |].
  destruct (List.find _ _) as [t|] eqn:F.
  - apply find_some in F as [I E]. by apply bool_decide_eq_true in E.
  - intros t I E. apply (find_none _ _ F) in I. by apply bool_decide_eq_false in I.
Qed.

(** X4 on the sample document. *)
Lemma getTextById_found_witness :
  exists data,
    analysisData (fst (getTextById Sample.server "antichrist" initial)) = Some data /\
    In Sample.antichrist (texts (content data)) /\ id Sample.antichrist = "antichrist".
Proof.
  exact (getTextById_found Sample.server "antichrist" initial _ (Some Sample.antichrist)
           eq_refl).
Defined.

(** X5: a record that [getVocabularyOverlap] returns is a stored pair of the
    cached document whose two ids are the two ids asked for, in one order
    or the other; it returns [undefined] only when no stored pair joins the
    two ids in either order. *)
Theorem getVocabularyOverlap_found (server : nat -> fetched) (a b : string)
    (st st' : loader) (r : option pair) :
  getVocabularyOverlap server a b st = (st', Returned r) ->
  exists data,
    analysisData st' = Some data /\
    match r with
    | Some p =>
        In p (pairs (vocabulary_overlap (comparative (content data)))) /\
        ((text1 p = a /\ text2 p = b) \/ (text1 p = b /\ text2 p = a))
    | None =>
        forall p, In p (pairs (vocabulary_overlap (comparative (content data)))) ->
                  ~ (text1 p = a /\ text2 p = b) /\ ~ (text1 p = b /\ text2 p = a)
    end.
Proof.
  intros H. unfold getVocabularyOverlap in H.
  apply bind_returned in H as (data & C & ->).
  exists data. split; [done |].
  destruct (List.find _ _) as [p|] eqn:F.
  - apply find_some in F as [I E]. split; [done |].
    unfold matches in E. apply orb_true_iff in E.
    rewrite !andb_true_iff, !bool_decide_eq_true in E. done.
  - intros p I. apply (find_none _ _ F) in I.
    unfold matches in I. apply orb_false_iff in I.
    rewrite !andb_false_iff, !bool_decide_eq_false in I. tauto.
Qed.

(** X5 on the sample document, the ids given in the order opposite to the
    stored one. *)
Lemma getVocabularyOverlap_found_witness :
  exists data,
    analysisData (fst (getVocabularyOverlap Sample.server "antichrist" "ecce_homo" initial))
      = Some data /\
    In Sample.ecce_antichrist (pairs (vocabulary_overlap (comparative (content data)))) /\
    ((text1 Sample.ecce_antichrist = "antichrist" /\
      text2 Sample.ecce_antichrist = "ecce_homo") \/
     (text1 Sample.ecce_antichrist = "ecce_homo" /\
      text2 Sample.ecce_antichrist = "antichrist")).
Proof.
  exact (getVocabularyOverlap_found Sample.server "antichrist" "ecce_homo" initial _
           (Some Sample.ecce_antichrist) eq_refl).
Defined.

End LoaderRunFacts.

(** ** Paths into a text *)

Section PathFacts.

Import Comparison ComparisonDetails.
Local Open Scope list_scope.

Lemma split_dots_cons (path : string) : exists key keys, split_dots path = key :: keys.
Proof.
  destruct path as [|c rest]; simpl; [by eexists _, _ |].
  case_bool_decide; [by eexists _, _ |].
  destruct (split_dots rest); by eexists _, _.
Qed.

Lemma split_dots_join (p q : string) :
  split_dots (p +:+ "." +:+ q) = split_dots p ++ split_dots q.
Proof.
  induction p as [|c p IH]; [done |].
  change (String c p +:+ "." +:+ q) with (String c (p +:+ "." +:+ q)).
  simpl. rewrite IH. case_bool_decide; [done |].
  by destruct (split_dots_cons p) as (key & keys & ->).
Qed.

Lemma split_dots_whole (key : string) : dot_free key = true -> split_dots key = [key].
Proof.
  induction key as [|c key IH]; [done |]. simpl.
  intros [C F]%andb_true_iff. apply negb_true_iff in C. rewrite C.
  by rewrite (IH F).
Qed.

Lemma property_undefined (keys : list string) : fold_left property keys None = None.
Proof. by induction keys. Qed.

(** X6: [getNestedValue] follows a path one key at a time and never throws:
    on a key without a dot it is the single lookup [obj?.[key]]; on [p.q] it
    is the value at [q] of the value at [p], and [undefined] as soon as the
    value at [p] is [undefined]. *)
Theorem getNestedValue_steps (obj : value) (p q : string) :
  (dot_free p = true -> getNestedValue obj p = property (Some obj) p) /\
  getNestedValue obj (p +:+ "." +:+ q)
  = match getNestedValue obj p with
    | Some v => getNestedValue v q
    | None => None
    end.
Proof.
  unfold getNestedValue. split.
  - intros F. by rewrite split_dots_whole.
  - rewrite split_dots_join, fold_left_app.
    destruct (fold_left property (split_dots p) (Some obj)); [done |].
    apply property_undefined.
Qed.

(** X6 on the sample text: the first key leads to the style metrics, and a
    path through a key that is missing is [undefined]. *)
Lemma getNestedValue_steps_witness :
  getNestedValue (toObject Sample.ecce_homo) "style_metrics"
  = Some (style_metrics Sample.ecce_homo) /\
  getNestedValue (toObject Sample.ecce_homo) "style.sentences" = None.
Proof.
  split.
  - rewrite (proj1 (getNestedValue_steps (toObject Sample.ecce_homo) "style_metrics" ""))
      by reflexivity.
    reflexivity.
  - change "style.sentences" with ("style" +:+ "." +:+ "sentences").
    rewrite (proj2 (getNestedValue_steps (toObject Sample.ecce_homo) "style" "sentences")).
    reflexivity.
Defined.

End PathFacts.

(** ** The tables of the comparison view *)

Section TableFacts.

Import Comparison ComparisonDetails.
Local Open Scope list_scope.

Lemma allNumbers_none (vs : list (option value)) :
  allNumbers vs = None <-> exists v, In v vs /\ asNumber v = None.
Proof.
  induction vs as [|v vs IH]; simpl.
  - split; [done | by intros (v & [] & _)].
  - destruct (asNumber v) as [n|] eqn:E.
    + destruct (allNumbers vs) as [ns|].
      * split; [done |]. intros (w & [<- | I] & N); [congruence |].
        by pose proof (proj2 IH (ex_intro _ w (conj I N))).
      * split; [| done]. intros _.
        destruct (proj1 IH eq_refl) as (w & I & N). eauto.
    + split; [| done]. intros _. eauto.
Qed.

Lemma allNumbers_length (vs : list (option value)) (ns : list number) :
  allNumbers vs = Some ns -> length ns = length vs.
Proof.
  revert ns. induction vs as [|v vs IH]; intros ns; simpl.
  - by intros [= <-].
  - destruct (asNumber v); [| done].
    destruct (allNumbers vs) as [ms|]; [| done].
    intros [= <-]. simpl. by rewrite (IH ms).
Qed.

Lemma renderStyleRow_cases (textsData : list text) (m : metric) :
  (exists row, renderStyleRow textsData m = Returned row /\
               row_label row = label m /\
               length (row_cells row) = length textsData /\
               forall t, In t textsData ->
                         asNumber (getNestedValue (toObject t) (path m)) <> None) \/
  (renderStyleRow textsData m = Threw "val.toFixed is not a function" /\
   exists t, In t textsData /\ asNumber (getNestedValue (toObject t) (path m)) = None).
Proof.
  unfold renderStyleRow.
  destruct (allNumbers _) as [ns|] eqn:E.
  - left. eexists. split; [reflexivity |]. simpl. split; [done |].
    split.
    + rewrite length_map, (allNumbers_length _ _ E). apply length_map.
    + intros t I N.
      assert (allNumbers (List.map (fun t => getNestedValue (toObject t) (path m)) textsData)
              = None) as H; [| congruence].
      apply allNumbers_none. eexists. split; [| exact N].
      by apply (in_map (fun t => getNestedValue (toObject t) (path m))).
  - right. split; [done |].
    apply allNumbers_none in E as (v & I & N).
    apply in_map_iff in I as (t & <- & I). eauto.
Qed.

(** X7: a row of the style table is rendered exactly when the metric path
    leads to a number in every text, and then has one cell per text; when
    one text has no number there, the row throws and nothing is rendered. *)
Theorem renderStyleRow_throws_iff (textsData : list text) (m : metric) :
  ((exists e, renderStyleRow textsData m = Threw e) <->
   exists t, In t textsData /\ asNumber (getNestedValue (toObject t) (path m)) = None) /\
  (forall row, renderStyleRow textsData m = Returned row ->
               length (row_cells row) = length textsData) /\
  renderStyleRow textsData m <> Blocked.
Proof.
  destruct (renderStyleRow_cases textsData m)
    as [(row & -> & _ & L & A) | (-> & t & I & N)].
  - repeat split; try done.
    + by intros (e & ?).
    + intros (t & I & N). by destruct (A t I).
    + by intros row' [= <-].
  - repeat split; try done; eauto.
Qed.

(** X7 on two sample texts: a path that leads nowhere throws, the path of the
    average sentence length gives a row of two cells. *)
Lemma renderStyleRow_throws_iff_witness :
  (exists e, renderStyleRow [Sample.ecce_homo; Sample.antichrist]
               {| key := "k"; label := "l"; path := "style_metrics.sentences.nope";
                  unit := "" |} = Threw e) /\
  (forall row, renderStyleRow [Sample.ecce_homo; Sample.antichrist]
                 {| key := "k"; label := "l"; path := "style_metrics.sentences.avg_length";
                    unit := "" |} = Returned row ->
               length (row_cells row) = 2%nat).
Proof.
  split.
  - apply (proj1 (renderStyleRow_throws_iff [Sample.ecce_homo; Sample.antichrist]
                    {| key := "k"; label := "l"; path := "style_metrics.sentences.nope";
                       unit := "" |})).
    exists Sample.ecce_homo. split; [by left | reflexivity].
  - exact (proj1 (proj2 (renderStyleRow_throws_iff [Sample.ecce_homo; Sample.antichrist]
                           {| key := "k"; label := "l";
                              path := "style_metrics.sentences.avg_length";
                              unit := "" |}))).
Defined.

Lemma sequence_returned {A : Type} (rs : list (outcome A)) (l : list A) :
  sequence rs = Returned l <-> rs = List.map Returned l.
Proof.
  revert l. induction rs as [|r rs IH]; intros l; simpl.
  - split; [intros [= <-]; done | by destruct l].
  - destruct r as [a | e |]; try (split; [done | by destruct l]).
    destruct (sequence rs) as [l' | e |] eqn:E.
    + split.
      * intros [= <-]. simpl. f_equal. by apply IH.
      * destruct l as [|b l]; [done |]. intros [= -> H]. f_equal. f_equal.
        apply IH in H. congruence.
    + split; [done |]. destruct l as [|b l]; [done |]. intros [= -> H].
      apply IH in H. congruence.
    + split; [done |]. destruct l as [|b l]; [done |]. intros [= -> H].
      apply IH in H. congruence.
Qed.

Lemma sequence_threw {A : Type} (rs : list (outcome A)) (e : string) :
  sequence rs = Threw e -> In (Threw e) rs.
Proof.
  induction rs as [|r rs IH]; simpl; [done |].
  destruct r as [a | e' |]; try done.
  - destruct (sequence rs) as [l | e' |]; try done.
    intros [= <-]. right. by apply IH.
  - intros [= <-]. by left.
Qed.

Lemma sequence_not_blocked {A : Type} (rs : list (outcome A)) :
  ~ In Blocked rs -> sequence rs <> Blocked.
Proof.
  induction rs as [|r rs IH]; simpl; [done |].
  intros N. destruct r as [a | e |]; try done.
  - destruct (sequence rs) as [l | e |] eqn:E; try done.
    apply IH. tauto.
  - tauto.
Qed.

Lemma sequence_all_returned {A : Type} (rs : list (outcome A)) :
  (forall r, In r rs -> exists a, r = Returned a) -> exists l, sequence rs = Returned l.
Proof.
  induction rs as [|r rs IH]; simpl; [by eexists |].
  intros H. destruct (H r (or_introl eq_refl)) as (a & ->).
  destruct IH as (l & ->); [intros; apply H; by right | by eexists].
Qed.

(** X8: the style table is rendered exactly when each of the five metric
    paths leads to a number in every text; it then has the five rows, in
    the order Avg Sentence Length, Reading Ease, Grade Level, Avg Word
    Length, Punctuation Density, each with one cell per text.  Otherwise it
    throws. *)
Theorem renderStyleComparison_rows (textsData : list text) :
  ((exists rows, renderStyleComparison textsData = Returned rows) <->
   forall m t, In m metrics -> In t textsData ->
               asNumber (getNestedValue (toObject t) (path m)) <> None) /\
  (forall rows, renderStyleComparison textsData = Returned rows ->
     List.map row_label rows
     = ["Avg Sentence Length"; "Reading Ease"; "Grade Level"; "Avg Word Length";
        "Punctuation Density"] /\
     Forall (fun row => length (row_cells row) = length textsData) rows) /\
  renderStyleComparison textsData <> Blocked.
Proof.
  unfold renderStyleComparison. split; [split |]; [| | split].
  - intros (rows & E) m t Im It N. apply sequence_returned in E.
    destruct (renderStyleRow_cases textsData m) as [(_ & _ & _ & _ & A) | (T & _)].
    + by destruct (A t It).
    + apply (in_map (renderStyleRow textsData)) in Im. rewrite E, T in Im.
      apply in_map_iff in Im as (? & ? & _). done.
  - intros H. apply sequence_all_returned. intros r I.
    apply in_map_iff in I as (m & <- & Im).
    destruct (renderStyleRow_cases textsData m) as [(row & -> & _) | (_ & t & It & N)].
    + by eexists.
    + by destruct (H m t Im It).
  - intros rows E. apply sequence_returned in E.
    assert (G : Forall2 (fun m row => row_label row = label m /\
                                      length (row_cells row) = length textsData)
                        metrics rows).
    { revert rows E. generalize metrics. intros ms.
      induction ms as [|m ms IH]; intros rows E; destruct rows as [|row rows];
        simpl in E; try discriminate E; [constructor |].
      injection E as E1 E2. constructor; [| by apply IH].
      destruct (renderStyleRow_cases textsData m) as [(row' & R & L & C & _) | (T & _)];
        [| congruence].
      rewrite R in E1. injection E1 as <-. done. }
    clear E. split.
    + change (List.map row_label rows = List.map label metrics).
      revert G. generalize metrics. intros ms G.
      induction G as [|m row ms rows' [L C] G IH]; simpl; [done | by rewrite L, IH].
    + revert G. generalize metrics. intros ms G.
      induction G as [|m row ms rows' [L C] G IH]; constructor; done.
  - apply sequence_not_blocked. intros I.
    apply in_map_iff in I as (m & B & _).
    by destruct (renderStyleRow_cases textsData m) as [(row & R & _) | (T & _)]; congruence.
Qed.

(** X8 on the three sample texts, which carry the five metrics. *)
Lemma renderStyleComparison_rows_witness :
  exists rows,
    renderStyleComparison [Sample.ecce_homo; Sample.antichrist; Sample.beyond]
      = Returned rows /\
    List.map row_label rows
    = ["Avg Sentence Length"; "Reading Ease"; "Grade Level"; "Avg Word Length";
       "Punctuation Density"].
Proof.
  destruct (renderStyleComparison_rows [Sample.ecce_homo; Sample.antichrist; Sample.beyond])
    as ([_ R] & L & _).
  destruct R as (rows & E).
  - intros m t Im It.
    repeat (destruct Im as [<- | Im]; [
      repeat (destruct It as [<- | It]; [vm_compute; discriminate |]); destruct It |]).
    destruct Im.
  - exists rows. split; [exact E | exact (proj1 (L rows E))].
Defined.

End TableFacts.

(** ** The similarity table and the overlap details *)

Section MatrixTableFacts.

Import Comparison ComparisonDetails.
Local Open Scope list_scope.

Implicit Types (m : gmap string (gmap string number)) (textsData : list text).

(** A row of the table, for a text that has a row in the matrix and for one
    that has none. *)
Lemma matrixRow_cases m (t1 : text) textsData :
  (is_Some (m !! id t1) /\
   exists cells, sequence (List.map (matrixCellOf m t1) textsData) = Returned cells /\
                 length cells = length textsData) \/
  (m !! id t1 = None /\
   (textsData = [] \/
    sequence (List.map (matrixCellOf m t1) textsData)
    = Threw "Cannot read properties of undefined")).
Proof.
  destruct (m !! id t1) as [row|] eqn:E.
  - left. split; [done |].
    destruct (sequence_all_returned (List.map (matrixCellOf m t1) textsData))
      as (cells & C).
    { intros r (t2 & <- & _)%in_map_iff. unfold matrixCellOf. rewrite E. by eexists. }
    exists cells. split; [done |].
    apply sequence_returned in C.
    apply (f_equal (@length _)) in C. by rewrite !length_map in C.
  - right. split; [done |].
    destruct textsData as [|t2 rest]; [by left | right].
    simpl. unfold matrixCellOf at 1. by rewrite E.
Qed.

(** X9: the similarity table is rendered unless one of the texts has no row
    in the matrix, in which case it throws (an empty list of texts renders
    an empty table).  A rendered table is square, one row per text and one
    cell per text in each row, and every row is headed by the first fifteen
    characters of the title followed by three dots, cut or not. *)
Theorem renderSimilarityMatrix_square textsData (comparative : comparativeData) :
  let m := similarity_matrix (vocabulary_overlap comparative) in
  ((exists e, renderSimilarityMatrix textsData comparative = Threw e) <->
   exists t, In t textsData /\ m !! id t = None) /\
  (forall rows, renderSimilarityMatrix textsData comparative = Returned rows ->
     List.map fst rows = List.map (fun t => substring 0 15 (title t) +:+ "...") textsData /\
     Forall (fun row => length (snd row) = length textsData) rows) /\
  renderSimilarityMatrix textsData comparative <> Blocked.
Proof.
  intros m. unfold renderSimilarityMatrix. fold m.
  set (rowOf := fun t1 : text =>
                  match sequence (List.map (matrixCellOf m t1) textsData) with
                  | Returned cells => Returned (substring 0 15 (title t1) +:+ "...", cells)
                  | Threw e => Threw e
                  | Blocked => Blocked
                  end).
  assert (R : forall t1,
             (is_Some (m !! id t1) /\
              exists cells, rowOf t1 = Returned (substring 0 15 (title t1) +:+ "...", cells) /\
                            length cells = length textsData) \/
             (m !! id t1 = None /\
              (textsData = [] \/ rowOf t1 = Threw "Cannot read properties of undefined"))).
  { intros t1. subst rowOf. simpl.
    destruct (matrixRow_cases m t1 textsData) as [(S & cells & -> & L) | (N & [-> | ->])].
    - left. split; [done |]. by exists cells.
    - right. split; [done |]. by left.
    - right. split; [done |]. by right. }
  split; [split |]; [| | split].
  - intros (e & E). apply sequence_threw in E.
    apply in_map_iff in E as (t1 & E & I). exists t1. split; [done |].
    destruct (R t1) as [(_ & cells & C & _) | (N & _)]; [congruence | done].
  - intros (t1 & I & N).
    destruct (R t1) as [([row S] & _) | (_ & [-> | T])]; [congruence | done |].
    destruct (sequence (List.map rowOf textsData)) as [rows | e |] eqn:E.
    + apply sequence_returned in E.
      apply (in_map rowOf) in I. rewrite E, T in I.
      by apply in_map_iff in I as (? & ? & _).
    + by exists e.
    + exfalso. revert E. apply sequence_not_blocked.
      intros (t & B & _)%in_map_iff.
      destruct (R t) as [(_ & cells & C & _) | (_ & [-> | C])]; try congruence. done.
  - intros rows E. apply sequence_returned in E.
    assert (G : forall outer rows,
               List.map rowOf outer = List.map Returned rows ->
               List.map fst rows
               = List.map (fun t => substring 0 15 (title t) +:+ "...") outer /\
               Forall (fun row => length (snd row) = length textsData) rows).
    { clear rows E. induction outer as [|t outer IH]; intros [|row rows] H;
        simpl in H; try discriminate H; [by split |].
      injection H as H1 H2. destruct (IH rows H2) as [F L].
      destruct (R t) as [(_ & cells & C & Len) | (_ & [Em | T])].
      - rewrite C in H1. injection H1 as <-. simpl. split; [by rewrite F |].
        by constructor.
      - subst rowOf. simpl in H1. rewrite Em in H1. simpl in H1.
        injection H1 as <-. simpl. split; [by rewrite F |]. constructor; [by rewrite Em | done].
      - congruence. }
    by apply G.
  - apply sequence_not_blocked.
    intros (t & B & _)%in_map_iff.
    destruct (R t) as [(_ & cells & C & _) | (_ & [Em | C])]; try congruence.
    subst rowOf. simpl in B. by rewrite Em in B.
Qed.

(** X9 on the sample document: Beyond Good and Evil has no row in the
    matrix, so a table that includes it throws; the first two texts give a
    table of two rows of two cells. *)
Lemma renderSimilarityMatrix_square_witness :
  (exists e, renderSimilarityMatrix [Sample.ecce_homo; Sample.beyond]
               (comparative Sample.analysis) = Threw e) /\
  (forall rows, renderSimilarityMatrix [Sample.ecce_homo; Sample.antichrist]
                  (comparative Sample.analysis) = Returned rows ->
                List.map fst rows = ["Ecce Homo..."; "The Antichrist..."] /\
                Forall (fun row => length (snd row) = 2%nat) rows).
Proof.
  split.
  - apply (proj1 (renderSimilarityMatrix_square [Sample.ecce_homo; Sample.beyond]
                    (comparative Sample.analysis))).
    exists Sample.beyond. split; [right; by left | reflexivity].
  - exact (proj1 (proj2 (renderSimilarityMatrix_square
                           [Sample.ecce_homo; Sample.antichrist]
                           (comparative Sample.analysis)))).
Defined.

(** X10: a cell of the similarity table never throws once its row exists.
    For a similarity between 0 and 1 it prints a percentage between 0 and
    100, leaves the diagonal grey and takes, off the diagonal, a whole colour
    intensity between 0 and 200, so that both colour components
    [200 - intensity] stay between 0 and 200.  For an entry missing from the
    row it prints NaN. *)
Theorem matrixCellOf_bounds m (t1 t2 : text) (row : gmap string number) :
  m !! id t1 = Some row ->
  (row !! id t2 = None ->
   exists cell, matrixCellOf m t1 t2 = Returned cell /\ percentage cell = NaN) /\
  (forall q, row !! id t2 = Some (Fin q) -> (0 <= q)%Q -> (q <= 1)%Q ->
     exists cell p,
       matrixCellOf m t1 t2 = Returned cell /\
       percentage cell = Fin p /\ (0 <= p)%Q /\ (p <= 100)%Q /\
       (id t1 = id t2 -> colorIntensity cell = None) /\
       (id t1 <> id t2 ->
        exists z, colorIntensity cell = Some (ofZ z) /\ (0 <= z <= 200)%Z)).
Proof.
  intros R. unfold matrixCellOf. rewrite R. split.
  - intros ->. by eexists.
  - intros q -> L U. eexists _, _. split; [reflexivity |].
    cbn [percentage colorIntensity toNumber]. unfold mul, floor, ofZ.
    split; [reflexivity |].
    change (inject_Z 100) with 100%Q. change (inject_Z 200) with 200%Q.
    split; [lra |]. split; [lra |]. split.
    + intros E. by rewrite bool_decide_eq_true_2.
    + intros N. rewrite bool_decide_eq_false_2 by done.
      exists (Qfloor (q * 200)). split; [done |]. split.
      * assert (H : (0 <= q * 200)%Q) by lra. exact (Qfloor_resp_le _ _ H).
      * assert (H : (q * 200 <= 200)%Q) by lra. exact (Qfloor_resp_le _ _ H).
Qed.

(** X10 on the sample matrix: Ecce Homo against The Antichrist. *)
Lemma matrixCellOf_bounds_witness :
  exists cell p,
    matrixCellOf (similarity_matrix (vocabulary_overlap (comparative Sample.analysis)))
                 Sample.ecce_homo Sample.antichrist = Returned cell /\
    percentage cell = Fin p /\ (0 <= p)%Q /\ (p <= 100)%Q.
Proof.
  destruct (proj2 (matrixCellOf_bounds
                     (similarity_matrix (vocabulary_overlap (comparative Sample.analysis)))
                     Sample.ecce_homo Sample.antichrist _ eq_refl)
                  (10 # 39)%Q eq_refl)
    as (cell & p & E & P & L & U & _); [lra | lra |].
  exists cell, p. done.
Defined.

(** X11: a matrix that reads the same across the diagonal is rendered as a
    table that does: for two texts that both have a row, the cell of the
    first against the second and the cell of the second against the first
    are the same, percentage and colour. *)
Theorem matrixCellOf_symmetric m (t1 t2 : text) :
  Pipeline.symmetric m ->
  is_Some (m !! id t1) -> is_Some (m !! id t2) ->
  matrixCellOf m t1 t2 = matrixCellOf m t2 t1 /\
  exists cell, matrixCellOf m t1 t2 = Returned cell.
Proof.
  intros S [r1 E1] [r2 E2].
  pose proof (S (id t1) (id t2)) as H. unfold Pipeline.entry in H.
  rewrite E1, E2 in H. simpl in H.
  unfold matrixCellOf. rewrite E1, E2, H. split; [| by eexists].
  do 2 f_equal. repeat case_bool_decide; congruence.
Qed.

(** X11 on the matrix of the sample corpus. *)
Lemma matrixCellOf_symmetric_witness :
  matrixCellOf (Pipeline.similarityMatrix Sample.corpus) Scenarios.text_a Scenarios.text_b
  = matrixCellOf (Pipeline.similarityMatrix Sample.corpus) Scenarios.text_b Scenarios.text_a.
Proof.
  apply (matrixCellOf_symmetric (Pipeline.similarityMatrix Sample.corpus)
           Scenarios.text_a Scenarios.text_b).
  - apply fill_symmetric. intros i j. reflexivity.
  - vm_compute. by eexists.
  - vm_compute. by eexists.
Defined.

(** X12: for two texts, the details are printed from the first stored record
    that joins their ids, as it is stored: the row headed by the first
    text's title prints [unique_to_text1] and the row headed by the second
    prints [unique_to_text2].  When the record is stored with the two texts
    in the other order, the count printed under the first title is
    therefore the count of the second text. *)
Theorem overlap_details_read_stored_order (server : nat -> DataLoader.fetched)
    (st st' : DataLoader.loader) (data : DataLoader.object) (t0 t1 : text)
    (comparative : comparativeData) (p : pair) :
  DataLoader.loadData server st = (st', Returned data) ->
  List.find (DataLoader.matches (id t0) (id t1))
            (pairs (vocabulary_overlap (Data.comparative (DataLoader.content data))))
  = Some p ->
  renderVocabularyOverlap server [t0; t1] comparative st
  = (st', Returned (Details (title t0) (title t1) p)) /\
  In ("Unique to " +:+ title t0, ofZ (unique_to_text1 p))
     (sectionRows (Details (title t0) (title t1) p)) /\
  In ("Unique to " +:+ title t1, ofZ (unique_to_text2 p))
     (sectionRows (Details (title t0) (title t1) p)) /\
  (id t0 <> id t1 -> text1 p <> id t0 -> text1 p = id t1 /\ text2 p = id t0).
Proof.
  intros L F. split; [| split; [| split]].
  - unfold renderVocabularyOverlap, DataLoader.getVocabularyOverlap, bind.
    by rewrite L, F.
  - simpl. tauto.
  - simpl. tauto.
  - intros N N1. apply find_some in F as [_ M].
    unfold DataLoader.matches in M. apply orb_true_iff in M.
    rewrite !andb_true_iff, !bool_decide_eq_true in M.
    destruct M as [[? ?] | [? ?]]; [done | done].
Qed.

(** X12 on the sample document, The Antichrist given first: the stored
    record has Ecce Homo as its first text. *)
Lemma overlap_details_read_stored_order_witness :
  In ("Unique to The Antichrist", ofZ (unique_to_text1 Sample.ecce_antichrist))
     (sectionRows (Details "The Antichrist" "Ecce Homo" Sample.ecce_antichrist)) /\
  text1 Sample.ecce_antichrist = "ecce_homo".
Proof.
  destruct (overlap_details_read_stored_order Sample.server DataLoader.initial _
              {| DataLoader.addr := 0; DataLoader.content := Sample.analysis |}
              Sample.antichrist Sample.ecce_homo (comparative Sample.analysis)
              Sample.ecce_antichrist eq_refl eq_refl) as (_ & A & _ & B).
  split; [exact A |].
  apply B; discriminate.
Defined.

End MatrixTableFacts.

(** ** Sizes and grey levels of the word cloud *)

Section CloudDrawFacts.

Import WordCloud WordCloudDraw.
Local Open Scope Q_scope.

(** The font size written out, between the extremes of the list. *)
Lemma fontSize_value (wordData : list wordCount) (w : wordCount) :
  In w wordData ->
  exists lo hi,
    minCount wordData = Fin lo /\ maxCount wordData = Fin hi /\
    lo <= inject_Z (count w) /\ inject_Z (count w) <= hi /\
    (lo < hi ->
     fontSize wordData w
     = Fin (inject_Z 12 + (inject_Z (count w) - lo) / (hi - lo) * inject_Z 48)) /\
    (~ lo < hi -> fontSize wordData w = NaN).
Proof.
  intros Hw.
  set (qs := List.map (fun w => inject_Z (count w)) wordData).
  assert (Iw : In (inject_Z (count w)) qs)
    by (by apply (in_map (fun w => inject_Z (count w)))).
  assert (Hqs : qs <> []) by (by destruct qs).
  destruct (Math_min_finite qs Hqs) as (lo & Elo & Ilo & Blo).
  destruct (Math_max_finite qs Hqs) as (hi & Ehi & Ihi & Bhi).
  exists lo, hi. unfold fontSize, minCount, maxCount. rewrite counts_finite. fold qs.
  rewrite Elo, Ehi. unfold ofZ. simpl sub.
  pose proof (Blo _ Iw) as Lw. pose proof (Bhi _ Iw) as Uw.
  pose proof (Bhi _ Ilo) as LH.
  repeat split; try done.
  - intros H. unfold div. by rewrite sign_Gt by lra.
  - intros H. apply Qnot_lt_le in H.
    unfold div. rewrite (sign_Eq (hi - lo)) by lra.
    by rewrite (sign_Eq (inject_Z (count w) - lo)) by lra.
Qed.

(** X13: when the counts are not all equal, the scale is used in full: a
    word with the smallest count is set in 12 px and a word with the largest
    count in 60 px. *)
Theorem fontSize_extremes (wordData : list wordCount) (w : wordCount) :
  In w wordData ->
  JsNumber.lt (minCount wordData) (maxCount wordData) ->
  (same (ofZ (count w)) (minCount wordData) -> same (fontSize wordData w) (Fin 12)) /\
  (same (ofZ (count w)) (maxCount wordData) -> same (fontSize wordData w) (Fin 60)).
Proof.
  intros Hw.
  destruct (fontSize_value wordData w Hw) as (lo & hi & -> & -> & L & U & V & _).
  simpl. intros H. rewrite (V H). simpl. unfold ofZ. simpl.
  change (inject_Z 12) with 12. change (inject_Z 48) with 48.
  split; intros E; rewrite E; field; lra.
Qed.

(** X13 on the sample words: "god" is the rarest and "life" the most
    frequent. *)
Lemma fontSize_extremes_witness :
  same (fontSize (top_100 Sample.ecce_homo) {| word := "god"; count := 10 |}) (Fin 12) /\
  same (fontSize (top_100 Sample.ecce_homo) {| word := "life"; count := 90 |}) (Fin 60).
Proof.
  split.
  - apply (fontSize_extremes (top_100 Sample.ecce_homo) {| word := "god"; count := 10 |});
      [right; right; by left | vm_compute; reflexivity | vm_compute; reflexivity].
  - apply (fontSize_extremes (top_100 Sample.ecce_homo) {| word := "life"; count := 90 |});
      [by left | vm_compute; reflexivity | vm_compute; reflexivity].
Defined.

Lemma intensity_finite (s : Q) :
  intensity (Fin s) = ofZ (Qfloor (inject_Z 40 + (inject_Z 1 - s / inject_Z 60) * inject_Z 120)).
Proof. reflexivity. Qed.

(** X14: the grey level that [draw] computes from the size of a word,
    [Math.floor(40 + (1 - word.size / 60) * 120)], for the sizes between 0
    and 60: it is a whole number between 40 and 160, at most 136 from size
    12 on, hence a valid colour component, and of two sizes the larger never
    gets the lighter grey.  The sizes are those that the layout hands to
    [draw]; the layout is a library outside these modules. *)
Theorem intensity_range (s s' : Q) :
  0 <= s -> s <= s' -> s' <= 60 ->
  exists k k', intensity (Fin s) = ofZ k /\ intensity (Fin s') = ofZ k' /\
               (40 <= k')%Z /\ (k' <= k)%Z /\ (k <= 160)%Z /\
               (12 <= s -> (k <= 136)%Z).
Proof.
  intros L M U. rewrite !intensity_finite.
  eexists _, _. split; [reflexivity |]. split; [reflexivity |].
  change (inject_Z 40) with 40. change (inject_Z 1) with 1.
  change (inject_Z 60) with 60. change (inject_Z 120) with 120.
  assert (E : 40 + (1 - s / 60) * 120 == 160 - 2 * s) by field.
  assert (E' : 40 + (1 - s' / 60) * 120 == 160 - 2 * s') by field.
  repeat split.
  - assert (G : 40 <= 40 + (1 - s' / 60) * 120) by lra. exact (Qfloor_resp_le _ _ G).
  - apply Qfloor_resp_le. lra.
  - assert (G : 40 + (1 - s / 60) * 120 <= 160) by lra. exact (Qfloor_resp_le _ _ G).
  - intros L12.
    assert (G : 40 + (1 - s / 60) * 120 <= 136) by lra. exact (Qfloor_resp_le _ _ G).
Qed.

(** X14 on the two ends of the scale of font sizes. *)
Lemma intensity_range_witness :
  exists k k', intensity (Fin 12) = ofZ k /\ intensity (Fin 60) = ofZ k' /\
               (40 <= k')%Z /\ (k' <= k)%Z /\ (k <= 136)%Z.
Proof.
  destruct (intensity_range 12 60) as (k & k' & E & E' & A & B & _ & D); try lra.
  exists k, k'. repeat split; try done. apply D. lra.
Defined.

End CloudDrawFacts.

(** ** The n-gram list and the table headings *)

Section NGramFacts.

Import NGramList.
Local Open Scope list_scope.

Lemma display_fields (allNgrams : ngramSets) (pg : page) :
  currentNgramType (display allNgrams pg) = currentNgramType pg /\
  listeners (display allNgrams pg) = listeners pg ++ [allNgrams] /\
  renders (display allNgrams pg) = S (renders pg) /\
  shown (display allNgrams pg)
  = Some (renderNGrams (ngramsOf allNgrams (currentNgramType pg)) (currentNgramType pg)).
Proof. done. Qed.

Lemma displays_fields (texts : list ngramSets) (pg : page) :
  let pg' := fold_left (fun pg allNgrams => display allNgrams pg) texts pg in
  currentNgramType pg' = currentNgramType pg /\
  listeners pg' = listeners pg ++ texts /\
  renders pg' = (renders pg + length texts)%nat.
Proof.
  revert pg. induction texts as [|a texts IH]; intros pg; simpl.
  - by rewrite app_nil_r, Nat.add_0_r.
  - destruct (IH (display a pg)) as (T & L & R). simpl in *.
    rewrite T, L, R. repeat split; [by rewrite <- app_assoc | lia].
Qed.

Lemma handlers_fields (type : string) (ls : list ngramSets) (pg : page) :
  let pg' := fold_left (handler type) ls pg in
  listeners pg' = listeners pg /\
  renders pg' = (renders pg + length ls)%nat /\
  (forall earlier last, ls = earlier ++ [last] ->
     currentNgramType pg' = type /\
     shown pg' = Some (renderNGrams (ngramsOf last type) type)).
Proof.
  revert pg. induction ls as [|a ls IH] using rev_ind; intros pg; simpl.
  - split; [done |]. split; [lia |]. intros earlier last H. by destruct earlier.
  - rewrite fold_left_app. simpl.
    destruct (IH pg) as (L & R & _). simpl in *.
    rewrite L, R, length_app. simpl.
    split; [done |]. split; [lia |].
    intros earlier last H. apply app_inj_tail in H as [_ <-]. done.
Qed.

(** X15: the click handlers of the n-gram pills pile up, one more for every
    text displayed, and a click runs them all, each writing the list once.
    After the texts [earlier] and then [last] have been displayed, a click
    on the pill of [type] leaves the list showing the n-grams of that type
    of [last], the text displayed last; the type stays selected, so the
    next text displayed opens on it; [clear] goes back to bigrams and
    removes no handler. *)
Theorem switcher_shows_last_text (pg : page) (earlier : list ngramSets)
    (last : ngramSets) (type : string) :
  let pg1 := fold_left (fun pg allNgrams => display allNgrams pg) (earlier ++ [last]) pg in
  let pg2 := click type pg1 in
  shown pg2 = Some (renderNGrams (ngramsOf last type) type) /\
  currentNgramType pg2 = type /\
  renders pg2 = (renders pg1 + length (listeners pg) + length earlier + 1)%nat /\
  (forall next, shown (display next pg2)
                = Some (renderNGrams (ngramsOf next type) type)) /\
  currentNgramType (clear pg2) = "bigrams" /\
  listeners (clear pg2) = listeners pg ++ earlier ++ [last].
Proof.
  intros pg1 pg2.
  destruct (displays_fields (earlier ++ [last]) pg) as (T1 & L1 & R1). fold pg1 in T1, L1, R1.
  destruct (handlers_fields type (listeners pg1) pg1) as (L2 & R2 & S2).
  fold (click type pg1) in L2, R2, S2. fold pg2 in L2, R2, S2.
  destruct (S2 (listeners pg ++ earlier) last) as [T2 Sh2].
  { by rewrite L1, app_assoc. }
  repeat split; try done.
  - rewrite R2, L1, !length_app. simpl. lia.
  - intros next. by rewrite (proj2 (proj2 (proj2 (display_fields next pg2)))), T2.
  - simpl. by rewrite L2, L1.
Qed.

End NGramFacts.

Section HeadingFacts.

Import NGrams.

Lemma length_append (a b : string) :
  String.length (a +:+ b) = (String.length a + String.length b)%nat.
Proof. induction a as [|c a IH]; simpl; [done | by rewrite IH]. Qed.

Lemma substring_0_length (n : nat) (s : string) :
  String.length (substring 0 n s) = Nat.min n (String.length s).
Proof.
  revert s. induction n as [|n IH]; intros [|c s]; simpl; try done.
  by rewrite IH.
Qed.

(** X16: a heading of the concept table is the title itself when the title
    has at most 20 characters, and otherwise its first 20 characters
    followed by three dots; it is never longer than 23 characters. *)
Theorem heading_truncates (t : text) :
  ((String.length (title t) <= 20)%nat -> heading t = title t) /\
  ((20 < String.length (title t))%nat ->
   heading t = substring 0 20 (title t) +:+ "..." /\ String.length (heading t) = 23%nat) /\
  (String.length (heading t) <= 23)%nat.
Proof.
  unfold heading.
  destruct (20 <? String.length (title t))%nat eqn:E.
  - apply Nat.ltb_lt in E.
    assert (L : String.length (substring 0 20 (title t) +:+ "...") = 23%nat).
    { rewrite length_append, substring_0_length, Nat.min_l by lia. reflexivity. }
    repeat split; try done; lia.
  - apply Nat.ltb_ge in E. repeat split; try done; lia.
Qed.

(** X16 on two sample titles, the second of exactly 20 characters. *)
Lemma heading_truncates_witness :
  heading Sample.ecce_homo = "Ecce Homo" /\ heading Sample.beyond = "Beyond Good and Evil".
Proof.
  split.
  - apply (proj1 (heading_truncates Sample.ecce_homo)). simpl. lia.
  - apply (proj1 (heading_truncates Sample.beyond)). simpl. lia.
Defined.

End HeadingFacts.

(** ** The controller over a session *)

Section SessionFacts.

Import App AppButton.
Local Open Scope list_scope.

Lemma showComparison_calls (st : app) :
  exists extra, calls (showComparison st)
                = calls st ++ ShowComparison (selectedTextsForComparison st) :: extra.
Proof.
  unfold showComparison.
  destruct (showComparisonBody_calls (record (ShowComparison (selectedTextsForComparison st)) st))
    as [-> | [-> _]]; simpl.
  - by exists [].
  - rewrite <- app_assoc. simpl. by eexists.
Qed.

(** X17: the compare button is disabled exactly when a click on it would do
    nothing, and when it is enabled it announces the number of selected
    texts, which is at least two. *)
Theorem compare_button_matches_click (st : app) :
  (disabled (updateCompareButton st) = true <-> compareClick st = st) /\
  (disabled (updateCompareButton st) = false <->
   textContent (updateCompareButton st)
   = CompareTexts (size (selectedTextsForComparison st))) /\
  (forall count, textContent (updateCompareButton st) = CompareTexts count ->
                 (2 <= count)%nat).
Proof.
  unfold updateCompareButton, compareClick. cbn [disabled textContent].
  destruct (size (selectedTextsForComparison st) <? 2)%nat eqn:D.
  - apply Nat.ltb_lt in D.
    assert ((2 <=? size (selectedTextsForComparison st))%nat = false) as ->
      by (apply Nat.leb_gt; lia).
    repeat split; done.
  - apply Nat.ltb_ge in D.
    assert ((2 <=? size (selectedTextsForComparison st))%nat = true) as ->
      by (by apply Nat.leb_le).
    repeat split; try done.
    + intros E. destruct (showComparison_calls st) as (extra & C).
      rewrite E in C. apply (f_equal (@length _)) in C.
      rewrite length_app in C. simpl in C. lia.
    + by intros count [= <-].
Qed.

(** X17 on the sample texts with one box ticked, then two. *)
Lemma compare_button_matches_click_witness :
  let one := run (start (texts Sample.analysis)) [CheckboxChange "ecce_homo" true] in
  let two := run one [CheckboxChange "antichrist" true] in
  compareClick one = one /\
  textContent (updateCompareButton two) = CompareTexts 2.
Proof.
  intros one two. split.
  - apply (proj1 (compare_button_matches_click one)). reflexivity.
  - apply (proj1 (proj2 (compare_button_matches_click two))). reflexivity.
Defined.

Lemma filter_sublist {A : Type} (f : A -> bool) (l : list A) :
  List.filter f l `sublist_of` l.
Proof.
  induction l as [|x l IH]; simpl; [constructor |].
  destruct (f x); by constructor.
Qed.

Lemma handle_allTexts (st : app) (e : event) : allTexts (handle st e) = allTexts st.
Proof.
  destruct e as [textId checked | |]; simpl; try done.
  unfold compareClick. destruct (2 <=? _)%nat; [| done].
  unfold showComparison, showComparisonBody.
  by destruct (length _ <? 2)%nat.
Qed.

(** The calls that one event adds to the record. *)
Lemma handle_calls (st : app) (e : event) :
  exists extra,
    calls (handle st e) = calls st ++ extra /\
    (extra <> [] -> e = CloseClick /\ extra = [ComparisonClear] \/
                    e = CompareClick /\
                    (2 <= size (selectedTextsForComparison st))%nat) /\
    Forall (fun c => match c with
                     | ComparisonDisplay selected =>
                         selected `sublist_of` allTexts st /\
                         Forall (fun t => id t ∈ selectedTextsForComparison st) selected
                     | _ => True
                     end) extra.
Proof.
  destruct e as [textId checked | |]; simpl.
  - exists []. by rewrite app_nil_r.
  - unfold compareClick.
    destruct (2 <=? size (selectedTextsForComparison st))%nat eqn:E.
    + apply Nat.leb_le in E. unfold showComparison.
      set (st1 := record _ st).
      destruct (showComparisonBody_calls st1) as [-> | [-> L]]; subst st1; simpl.
      * eexists. split; [reflexivity |]. split; [by right |]. by repeat constructor.
      * rewrite <- app_assoc. eexists. split; [reflexivity |]. split; [by right |].
        repeat constructor.
        -- apply filter_sublist.
        -- apply Forall_forall. intros t I. apply list_elem_of_In, filter_In in I as [_ I].
           by apply bool_decide_eq_true in I.
    + exists []. by rewrite app_nil_r.
  - eexists. split; [reflexivity |]. split; [by left |]. by repeat constructor.
Qed.

(** X18: in every run of the interface, the texts handed to
    [Comparison.display] form a sublist of the loaded texts: they are texts
    of the document, in the order of the document, whatever the order in
    which the boxes were ticked. *)
Theorem displayed_texts_in_document_order (loaded : list text) (events : list event) :
  Forall (fun c => match c with
                   | ComparisonDisplay selected => selected `sublist_of` loaded
                   | _ => True
                   end)
         (calls (run (start loaded) events)).
Proof.
  assert (G : forall st,
             allTexts st = loaded ->
             Forall (fun c => match c with
                              | ComparisonDisplay selected => selected `sublist_of` loaded
                              | _ => True
                              end) (calls st) ->
             Forall (fun c => match c with
                              | ComparisonDisplay selected => selected `sublist_of` loaded
                              | _ => True
                              end) (calls (run st events))).
  { induction events as [|e events IH]; intros st A F; [done |].
    simpl. apply IH; [by rewrite handle_allTexts |].
    destruct (handle_calls st e) as (extra & -> & _ & X).
    apply Forall_app. split; [done |].
    eapply Forall_impl; [exact X |]. intros [sel | sel |]; try done.
    rewrite A. tauto. }
  apply G; [done | constructor].
Qed.

(** After a sequence of events the selection holds at most the boxes that
    were ticked on top of those selected before. *)
Lemma few_ticks_no_comparison (events : list event) (st : app) :
  (size (selectedTextsForComparison st) + ticks events < 2)%nat ->
  exists extra, calls (run st events) = calls st ++ extra /\
                Forall (fun c => c = ComparisonClear) extra.
Proof.
  revert st. induction events as [|e events IH]; intros st H.
  - exists []. by rewrite app_nil_r.
  - change (run st (e :: events)) with (run (handle st e) events).
    destruct e as [textId checked | |]; cbn [handle].
    + destruct (IH (checkboxChange textId checked st)) as (extra & -> & F).
      * simpl. unfold ticks in *. simpl in H. destruct checked; simpl in H |- *.
        -- pose proof (size_union_alt {[textId]} (selectedTextsForComparison st)) as U.
           rewrite size_singleton in U.
           pose proof (subseteq_size (selectedTextsForComparison st ∖ {[textId]})
                         (selectedTextsForComparison st) ltac:(set_solver)).
           lia.
        -- pose proof (subseteq_size (selectedTextsForComparison st ∖ {[textId]})
                         (selectedTextsForComparison st) ltac:(set_solver)).
           lia.
      * by exists extra.
    + assert (compareClick st = st) as ->.
      { unfold compareClick.
        destruct (2 <=? size (selectedTextsForComparison st))%nat eqn:E; [| done].
        apply Nat.leb_le in E. unfold ticks in H. simpl in H. lia. }
      apply IH. unfold ticks in *. by simpl in H.
    + destruct (IH (closeComparison st)) as (extra & -> & F).
      * assert (Z0 : size (selectedTextsForComparison (closeComparison st)) = 0%nat)
          by apply size_empty.
        rewrite Z0. unfold ticks in *. simpl in H. lia.
      * simpl. rewrite <- app_assoc. eexists. split; [reflexivity |].
        by constructor.
Qed.

(** X19: a comparison needs two boxes ticked since the selection was last
    empty: from the start, and again after the comparison view was closed,
    a sequence of events that ticks fewer than two boxes calls neither
    [showComparison] nor [Comparison.display], however often the compare
    button is clicked; all it can record is the clearing of the view. *)
Theorem comparison_needs_two_ticks (st : app) (loaded : list text) (events : list event) :
  (ticks events < 2)%nat ->
  Forall (fun c => c = ComparisonClear) (calls (run (start loaded) events)) /\
  exists extra,
    calls (run (closeComparison st) events) = calls (closeComparison st) ++ extra /\
    Forall (fun c => c = ComparisonClear) extra.
Proof.
  intros H. split.
  - destruct (few_ticks_no_comparison events (start loaded)) as (extra & -> & F); [| done].
    assert (Z0 : size (selectedTextsForComparison (start loaded)) = 0%nat)
      by apply size_empty.
    by rewrite Z0.
  - apply few_ticks_no_comparison.
    assert (Z0 : size (selectedTextsForComparison (closeComparison st)) = 0%nat)
      by apply size_empty.
    by rewrite Z0.
Qed.

(** X19 on the sample texts: one box ticked and three clicks. *)
Lemma comparison_needs_two_ticks_witness :
  Forall (fun c => c = ComparisonClear)
         (calls (run (start (texts Sample.analysis))
                     [CompareClick; CheckboxChange "ecce_homo" true; CompareClick;
                      CheckboxChange "antichrist" false; CompareClick])).
Proof.
  apply (comparison_needs_two_ticks (start []) (texts Sample.analysis)
           [CompareClick; CheckboxChange "ecce_homo" true; CompareClick;
            CheckboxChange "antichrist" false; CompareClick]).
  vm_compute. lia.
Defined.

End SessionFacts.

(** ** One fetch for the whole session *)

Section OneFetchFacts.

Import DataLoader Comparison App AppButton.
Local Open Scope list_scope.

Lemma renderOverview_not_blocked (textsData : list text) :
  renderOverview textsData <> Blocked.
Proof.
  apply sequence_not_blocked. intros (t & B & _)%in_map_iff.
  unfold renderOverviewRow in B. by destruct (asNumber _).
Qed.

Lemma renderStyleComparison_not_blocked (textsData : list text) :
  renderStyleComparison textsData <> Blocked.
Proof.
  apply sequence_not_blocked. intros (m & B & _)%in_map_iff.
  destruct (renderStyleRow_cases textsData m) as [(row & R & _) | (T & _)]; congruence.
Qed.

Lemma renderSimilarityMatrix_not_blocked (textsData : list text) (comparative : comparativeData) :
  renderSimilarityMatrix textsData comparative <> Blocked.
Proof.
  apply sequence_not_blocked. intros (t & B & _)%in_map_iff.
  destruct (matrixRow_cases (similarity_matrix (vocabulary_overlap comparative)) t textsData)
    as [(_ & cells & C & _) | (_ & [E | C])].
  - by rewrite C in B.
  - by rewrite E in B.
  - by rewrite C in B.
Qed.

(** With the document cached, the comparison view is rendered or throws
    without touching the loader. *)
Lemma display_of_cached (server : nat -> fetched) (ld : loader) (data : object)
    (container : bool) (textsData : list text) (comparative : comparativeData) :
  analysisData ld = Some data ->
  exists r, display container server textsData comparative ld = (ld, r) /\ r <> Blocked.
Proof.
  intros C. unfold display.
  destruct container; simpl; [| eexists; split; [reflexivity | discriminate]].
  pose proof (renderOverview_not_blocked textsData).
  destruct (renderOverview textsData) as [overview | e |];
    [| eexists; split; [reflexivity | discriminate] | done].
  pose proof (renderStyleComparison_not_blocked textsData).
  destruct (renderStyleComparison textsData) as [style | e |];
    [| eexists; split; [reflexivity | discriminate] | done].
  unfold bind, renderVocabularyOverlap.
  destruct textsData as [|t0 [|t1 [|t2 rest]]];
    try (match goal with
         | |- context [renderSimilarityMatrix ?l ?c] =>
             pose proof (renderSimilarityMatrix_not_blocked l c);
             destruct (renderSimilarityMatrix l c);
             first [ eexists; split; [reflexivity | discriminate] | done ]
         end).
  unfold getVocabularyOverlap, bind. cbv beta.
  rewrite (loadData_of_cached server ld data C).
  eexists; split; [reflexivity | discriminate].
Qed.

(** X20: when [init] has loaded the document, exactly one fetch has been
    issued, the controller holds the texts and the comparative data of the
    cached document, and every comparison view rendered afterwards, for any
    list of texts and whatever the network then does, leaves the loader
    untouched: it issues no fetch and never waits for one. *)
Theorem session_fetches_once (server : nat -> fetched) (ld : loader) (st : app)
    (comp : comparativeData) :
  init server initial = (ld, Some (st, comp)) ->
  fetches ld = 1%nat /\
  (exists data, analysisData ld = Some data /\
                st = start (texts (content data)) /\
                comp = comparative (content data)) /\
  forall server' container textsData,
    exists r, display container server' textsData comp ld = (ld, r) /\ r <> Blocked.
Proof.
  unfold init. destruct (loadData server initial) as [ld' [data | e |]] eqn:L; try done.
  intros [= <- <- <-].
  pose proof (loadData_returned_cached _ _ _ _ L) as C.
  split; [| split].
  - unfold loadData in L. simpl in L.
    destruct (server 0%nat) as [|[] status [doc|]]; simpl in L; try done.
    by injection L as <- _.
  - by exists data.
  - intros server' container textsData. by apply (display_of_cached _ _ data).
Qed.

(** X20 on the sample server, the comparison asked for when the server is
    down. *)
Lemma session_fetches_once_witness :
  let ld := fst (init Sample.server initial) in
  fetches ld = 1%nat /\
  exists r, display true (fun _ => NetworkFailure) [Sample.ecce_homo; Sample.antichrist]
              (comparative Sample.analysis) ld = (ld, r) /\ r <> Blocked.
Proof.
  intros ld.
  destruct (session_fetches_once Sample.server ld (start (texts Sample.analysis))
              (comparative Sample.analysis) eq_refl) as (F & _ & D).
  split; [exact F |].
  exact (D (fun _ => NetworkFailure) true [Sample.ecce_homo; Sample.antichrist]).
Defined.

End OneFetchFacts.

(** ** Distribution bars *)

Section DistributionFacts.

Import StyleMetrics.
Local Open Scope list_scope.

Lemma total_from (dist : list (string * Z)) (a : Z) :
  fold_left (fun a entry => (a + snd entry)%Z) dist a
  = (a + fold_left (fun a entry => (a + snd entry)%Z) dist 0)%Z.
Proof.
  revert a. induction dist as [|e dist IH]; intros a; simpl; [lia |].
  rewrite (IH (a + snd e)%Z), (IH (0 + snd e)%Z). lia.
Qed.

Lemma total_bounds (dist : list (string * Z)) :
  Forall (fun entry => (0 <= snd entry)%Z) dist ->
  (0 <= total dist)%Z /\ forall entry, In entry dist -> (snd entry <= total dist)%Z.
Proof.
  unfold total. intros N.
  induction N as [|e dist H F IH]; [simpl; split; [lia | by intros ? []] |].
  destruct IH as [T B]. cbn [fold_left]. rewrite (total_from dist (0 + snd e)).
  split; [lia |].
  intros entry [<- | I]; [lia |]. specialize (B entry I). lia.
Qed.

Lemma percentageOf_value (count total : Z) :
  (0 <= count <= total)%Z -> (0 < total)%Z ->
  exists p, percentageOf count total = Fin p /\
            (0 <= p)%Q /\ (p <= 100)%Q /\
            (p - inject_Z count / inject_Z total * 100 <= 1 # 20)%Q /\
            (inject_Z count / inject_Z total * 100 - p <= 1 # 20)%Q.
Proof.
  intros [C0 CT] T.
  assert (Tq : (0 < inject_Z total)%Q) by (by rewrite (Zlt_Qlt 0 total) in T).
  assert (C0q : (0 <= inject_Z count)%Q) by (by rewrite (Zle_Qle 0 count) in C0).
  assert (CTq : (inject_Z count <= inject_Z total)%Q) by (by rewrite Zle_Qle in CT).
  set (x := (inject_Z count / inject_Z total)%Q).
  assert (X0 : (0 <= x)%Q) by (apply Qle_shift_div_l; lra).
  assert (X1 : (x <= 1)%Q) by (apply Qle_shift_div_r; lra).
  unfold percentageOf, ofZ, div. rewrite sign_Gt by done. fold x.
  unfold mul, toFixed1. change (inject_Z 100) with 100%Q.
  assert (Qle_bool 0 (x * 100) = true) as -> by (apply Qle_bool_iff; lra).
  eexists. split; [reflexivity |].
  pose proof (Qfloor_le (x * 100 * 10 + (1 # 2))) as F1.
  pose proof (Qlt_floor (x * 100 * 10 + (1 # 2))) as F2.
  assert (N0 : (0 <= Qfloor (x * 100 * 10 + (1 # 2)))%Z).
  { assert (G : (0 <= x * 100 * 10 + (1 # 2))%Q) by lra. exact (Qfloor_resp_le _ _ G). }
  assert (N1 : (Qfloor (x * 100 * 10 + (1 # 2)) <= 1000)%Z).
  { assert (G : (x * 100 * 10 + (1 # 2) <= 2001 # 2)%Q) by lra.
    exact (Qfloor_resp_le _ _ G). }
  rewrite (Zle_Qle 0) in N0. rewrite Zle_Qle in N1.
  rewrite inject_Z_plus in F2.
  change (inject_Z 0) with 0%Q in N0. change (inject_Z 1000) with 1000%Q in N1.
  change (inject_Z 1) with 1%Q in F2.
  set (n := inject_Z (Qfloor (x * 100 * 10 + (1 # 2)))) in *.
  assert (E : (n / 10 == n * (1 # 10))%Q) by field.
  repeat split; lra.
Qed.

(** X21: for a distribution with counts that are not negative and not all
    zero, each band gets a bar, in the order of the bands; its width is a
    percentage between 0 and 100, within a twentieth of a point of the exact
    share 100 * count / total; it has one of the six colours; and it carries
    a label exactly when the printed percentage is above 5. *)
Theorem distribution_bars (dist : list (string * Z)) (i : nat) (entry : string * Z) :
  Forall (fun entry => (0 <= snd entry)%Z) dist ->
  (0 < total dist)%Z ->
  dist !! i = Some entry ->
  length (renderSentenceDistribution dist) = length dist /\
  exists b p,
    renderSentenceDistribution dist !! i = Some b /\
    bar_range b = fst entry /\ bar_width b = Fin p /\
    (0 <= p)%Q /\ (p <= 100)%Q /\
    (p - inject_Z (snd entry) / inject_Z (total dist) * 100 <= 1 # 20)%Q /\
    (inject_Z (snd entry) / inject_Z (total dist) * 100 - p <= 1 # 20)%Q /\
    is_Some (bar_color b) /\
    (bar_label b = Some (Fin p) <-> (5 < p)%Q) /\
    (bar_label b = None <-> (p <= 5)%Q).
Proof.
  intros N T I.
  destruct (total_bounds dist N) as [_ B].
  assert (In entry dist) as Hin by (apply list_elem_of_In; by eapply list_elem_of_lookup_2).
  destruct (percentageOf_value (snd entry) (total dist)) as (p & P & P0 & P1 & E1 & E2).
  { split; [| by apply B]. by apply (proj1 (Forall_forall _ _) N), list_elem_of_In. }
  { done. }
  unfold renderSentenceDistribution. split; [apply length_imap |].
  rewrite list_lookup_imap, I. cbn [fmap option_fmap option_map].
  eexists _, p. split; [reflexivity |].
  cbn [bar_range bar_width bar_color bar_label].
  rewrite P. unfold gtb, ofZ. change (inject_Z 5) with 5%Q.
  assert (C : is_Some (colors !! (i mod length colors)%nat))
    by (apply lookup_lt_is_Some, Nat.mod_upper_bound; done).
  destruct (Qle_bool p 5) eqn:L; cbn [negb].
  - apply Qle_bool_iff in L. repeat split; try done. intros H. lra.
  - apply not_true_iff_false in L. rewrite Qle_bool_iff in L.
    apply Qnot_le_lt in L. repeat split; try done. intros H. lra.
Qed.

(** X21 on the sentence lengths of a short text: the second band holds 14
    of the 20 sentences. *)
Lemma distribution_bars_witness :
  exists b p,
    renderSentenceDistribution Scenarios.sentence_lengths !! 1%nat = Some b /\
    bar_range b = "11-20" /\ bar_width b = Fin p /\
    (0 <= p)%Q /\ (p <= 100)%Q /\ bar_label b = Some (Fin p).
Proof.
  destruct (distribution_bars Scenarios.sentence_lengths 1 ("11-20", 14%Z))
    as (_ & b & p & B & R & W & P0 & P1 & E1 & E2 & _ & L & _).
  - repeat constructor; simpl; lia.
  - reflexivity.
  - reflexivity.
  - exists b, p. repeat split; try done. apply L.
    change (snd ("11-20", 14%Z)) with 14%Z in E2.
    change (total Scenarios.sentence_lengths) with 20%Z in E2.
    assert (E : (inject_Z 14 / inject_Z 20 * 100 == 70)%Q) by reflexivity.
    rewrite E in E2. lra.
Defined.

(** X22: when every band of the distribution is empty, as for a text without
    sentences, the total is 0, every share is 0 / 0, and every bar has the
    width NaN and no label. *)
Theorem empty_distribution_bars (dist : list (string * Z)) :
  Forall (fun entry => snd entry = 0%Z) dist ->
  total dist = 0%Z /\
  length (renderSentenceDistribution dist) = length dist /\
  Forall (fun b => bar_width b = NaN /\ bar_label b = None)
         (renderSentenceDistribution dist).
Proof.
  intros Z0.
  assert (T : total dist = 0%Z).
  { unfold total. induction Z0 as [|e dist E F IH]; [done |].
    cbn [fold_left]. rewrite (total_from dist (0 + snd e)), E, IH. done. }
  split; [done |]. unfold renderSentenceDistribution. rewrite T.
  split; [apply length_imap |].
  apply Forall_lookup. intros i b. rewrite list_lookup_imap.
  destruct (dist !! i) as [entry|] eqn:I; [| done]. simpl. intros [= <-]. simpl.
  assert (snd entry = 0%Z) as ->.
  { apply (proj1 (Forall_forall _ _) Z0). by eapply list_elem_of_lookup_2. }
  done.
Qed.

(** X22 on four empty bands. *)
Lemma empty_distribution_bars_witness :
  Forall (fun b => bar_width b = NaN /\ bar_label b = None)
         (renderSentenceDistribution [("1-10", 0%Z); ("11-20", 0%Z); ("21-30", 0%Z);
                                      ("31+", 0%Z)]).
Proof.
  apply (empty_distribution_bars [("1-10", 0%Z); ("11-20", 0%Z); ("21-30", 0%Z);
                                  ("31+", 0%Z)]).
  by repeat constructor.
Defined.

End DistributionFacts.
